(** * Investment RAG chat bot: request orchestration pipeline

    A shallow embedding of [llm_client.py] (prompt builder, generation
    client with its retry loop, health probe) and of the [/chat] handler of
    [app.py] (request validation, retrieval, generation, fallback policy),
    followed by the properties of the specification that were checked
    against it.

    Conventions of the embedding:
    - a Python [str] is a list of Unicode code points, so that [len],
      slicing and [strip] count what Python counts;
    - effects (retrieval, HTTP posts, sleeps, clock reads) are threaded
      through an explicit state that records a trace of events, the answers
      of the outside world being given by an environment of oracles;
    - Python exceptions are values of [Exn]; a computation either returns
      or raises;
    - logging is not modelled (it has no influence on control flow, apart
      from the [len(answer)] inside a log line, which can raise and is
      kept). *)

From Stdlib Require Import List ZArith Bool Lia String Ascii QArith.
From Stdlib Require Import DecimalString.
Import ListNotations.

Set Implicit Arguments.
Set Warnings "-register-all".
Local Open Scope Z_scope.

(* ------------------------------------------------------------------ *)
(** ** Python strings *)
(* ------------------------------------------------------------------ *)

Module PyStr.

(** A code point. *)
Definition pychar := N.

(** A Python [str]. *)
Definition pystr := list pychar.

Definition pychar_eqb : pychar -> pychar -> bool := N.eqb.

Fixpoint eqb (a b : pystr) : bool :=
  match a, b with
  | [], [] => true
  | x :: a', y :: b' => pychar_eqb x y && eqb a' b'
  | _, _ => false
  end.

(** [len(s)] *)
Definition len (s : pystr) : Z := Z.of_nat (List.length s).

(** Truth value of a string: non-empty. *)
Definition truthy (s : pystr) : bool :=
  match s with [] => false | _ :: _ => true end.

(** Truth value of an [Optional[str]]: [None] and [""] are false. *)
Definition truthy_opt (o : option pystr) : bool :=
  match o with None => false | Some s => truthy s end.

(** [s[:n]] for a non-negative [n]. *)
Definition slice_to (n : nat) (s : pystr) : pystr := firstn n s.

(** [str.isspace] on one character: the code points Python's [str.strip()]
    removes. *)
Definition isspace (c : pychar) : bool :=
  ((9 <=? c) && (c <=? 13) || (28 <=? c) && (c <=? 32)
   || (c =? 133) || (c =? 160) || (c =? 5760)
   || (8192 <=? c) && (c <=? 8202)
   || (c =? 8232) || (c =? 8233) || (c =? 8239) || (c =? 8287)
   || (c =? 12288))%N.

Fixpoint lstrip (s : pystr) : pystr :=
  match s with
  | c :: s' => if isspace c then lstrip s' else s
  | [] => []
  end.

Definition rstrip (s : pystr) : pystr := rev (lstrip (rev s)).

(** [s.strip()] *)
Definition strip (s : pystr) : pystr := rstrip (lstrip s).

(** [needle in hay], as a proposition and as a test. *)
Definition contains (needle hay : pystr) : Prop :=
  exists pre post, hay = pre ++ needle ++ post.

Fixpoint starts_with (p s : pystr) : bool :=
  match p, s with
  | [], _ => true
  | x :: p', y :: s' => pychar_eqb x y && starts_with p' s'
  | _ :: _, [] => false
  end.

Fixpoint containsb (needle hay : pystr) : bool :=
  starts_with needle hay ||
  match hay with
  | [] => false
  | _ :: hay' => containsb needle hay'
  end.

(** *** Literals

    The literals of the source are written as UTF-8 text and decoded to
    code points. *)

Definition byte_val (a : ascii) : N := N_of_ascii a.

Definition cont_bits (a : ascii) : N := (byte_val a - 128)%N.

Fixpoint utf8_decode (s : string) : pystr :=
  match s with
  | EmptyString => []
  | String a rest =>
      let b := byte_val a in
      if (b <? 128)%N then b :: utf8_decode rest
      else match rest with
      | String a1 rest1 =>
          if (b <? 224)%N then
            ((b - 192) * 64 + cont_bits a1)%N :: utf8_decode rest1
          else match rest1 with
          | String a2 rest2 =>
              if (b <? 240)%N then
                ((b - 224) * 4096 + cont_bits a1 * 64 + cont_bits a2)%N
                  :: utf8_decode rest2
              else match rest2 with
              | String a3 rest3 =>
                  ((b - 240) * 262144 + cont_bits a1 * 4096
                   + cont_bits a2 * 64 + cont_bits a3)%N
                    :: utf8_decode rest3
              | EmptyString => [b]
              end
          | EmptyString => [b]
          end
      | EmptyString => [b]
      end
  end.

(** A surrogate code point, and a text that holds one. Such a text is a
    Python [str] (JSON escapes produce it) but no Unicode text: it has no
    UTF-8 form. *)
Definition is_surrogate (c : pychar) : bool :=
  ((55296 <=? c) && (c <=? 57343))%N.

Definition has_surrogate (s : pystr) : bool := existsb is_surrogate s.

(** [str(n)] for an [int]. *)
Definition str_of_int (n : Z) : pystr :=
  utf8_decode (NilZero.string_of_int (Z.to_int n)).

End PyStr.

Import PyStr.

Notation "'u8' s" := (utf8_decode s%string) (at level 9, s at level 0, only parsing).

(* ------------------------------------------------------------------ *)
(** ** Values exchanged with the outside world *)
(* ------------------------------------------------------------------ *)

(** What [response.json()] can return. A [JDict] lists the items of the
    parsed object; lookup takes the first item with the key. *)
Inductive JSON : Type :=
| JNull
| JBool (b : bool)
| JInt (n : Z)
| JFloat (q : Q)
| JStr (s : pystr)
| JList (l : list JSON)
| JDict (items : list (pystr * JSON)).

(** Exceptions, all subclasses of Python's [Exception]. *)
Inductive Exn : Type :=
| LLMAPIError (msg : pystr)                     (* llm_client.LLMAPIError *)
| HTTPException (status_code : Z) (detail : pystr)  (* fastapi.HTTPException *)
| TimeoutException (detail : pystr)             (* httpx.TimeoutException *)
| RequestError (detail : pystr)                 (* httpx.RequestError, not a timeout *)
| ValueError (msg : pystr)
| KeyError (key : pystr + Z)
| IndexError
| TypeError
| AttributeError
| OtherException (detail : pystr).

(** An [httpx.Response]: the fields the client reads. [json] is what
    [response.json()] does: return the parsed body or raise. *)
Record Response : Type := {
  status_code : Z;
  text : pystr;
  json : Exn + JSON
}.

(** A chat message, [{"role": ..., "content": ...}]. *)
Record Message : Type := {
  role : pystr;
  content : pystr
}.

(** The request body of a completion call. *)
Record Payload : Type := {
  payload_model : pystr;
  payload_messages : list Message;
  payload_temperature : Q;
  payload_max_tokens : Z;
  payload_top_p : Q
}.

(** Observable actions, in the order they happen. *)
Inductive Event : Type :=
| EvSearch (query : pystr) (top_k : Z)          (* knowledge_base.search *)
| EvPost (url : pystr) (headers : list (pystr * pystr)) (payload : Payload)
                                                (* http_client.post *)
| EvSleep (seconds : Z).                        (* asyncio.sleep *)

Definition is_post (e : Event) : bool :=
  match e with EvPost _ _ _ => true | _ => false end.

Definition is_sleep (e : Event) : bool :=
  match e with EvSleep _ => true | _ => false end.

(** Seconds slept in a trace. *)
Fixpoint total_sleep (t : list Event) : Z :=
  match t with
  | [] => 0
  | EvSleep n :: t' => n + total_sleep t'
  | _ :: t' => total_sleep t'
  end.

(** Number of posts in a trace. *)
Definition count_posts (t : list Event) : nat :=
  List.length (filter is_post t).

(* ------------------------------------------------------------------ *)
(** ** Subscripting a parsed body *)
(* ------------------------------------------------------------------ *)

Fixpoint dict_get (items : list (pystr * JSON)) (k : pystr) : option JSON :=
  match items with
  | [] => None
  | (k', v) :: rest => if PyStr.eqb k' k then Some v else dict_get rest k
  end.

(** [v[k]] for a string key [k]. *)
Definition getitem_key (v : JSON) (k : pystr) : Exn + JSON :=
  match v with
  | JDict items =>
      match dict_get items k with
      | Some x => inr x
      | None => inl (KeyError (inl k))
      end
  | _ => inl TypeError
  end.

(** [v[0]] *)
Definition getitem_0 (v : JSON) : Exn + JSON :=
  match v with
  | JList (x :: _) => inr x
  | JList [] => inl IndexError
  | JStr (c :: _) => inr (JStr [c])
  | JStr [] => inl IndexError
  | JDict _ => inl (KeyError (inr 0))
  | _ => inl TypeError
  end.

(** [len(v)] *)
Definition py_len (v : JSON) : Exn + Z :=
  match v with
  | JStr s => inr (len s)
  | JList l => inr (Z.of_nat (List.length l))
  | JDict items => inr (Z.of_nat (List.length items))
  | _ => inl TypeError
  end.

(** [v.strip()] *)
Definition py_strip (v : JSON) : Exn + pystr :=
  match v with
  | JStr s => inr (strip s)
  | _ => inl AttributeError
  end.

(** [range(n)] *)
Definition py_range (n : nat) : list Z := map Z.of_nat (seq 0 n).

(** An [Optional[str]] inside an f-string. *)
Definition format_opt (o : option pystr) : pystr :=
  match o with Some s => s | None => u8 "None" end.

(* ------------------------------------------------------------------ *)
(** ** Computations: state, trace and exceptions *)
(* ------------------------------------------------------------------ *)

(** How a computation ends. *)
Inductive Result (A : Type) : Type :=
| Return (a : A)
| Raise (e : Exn).

Arguments Return {A} a.
Arguments Raise {A} e.

(** What has happened so far: the number of posts issued and of clock
    reads made (they index the oracles of the environment) and the trace. *)
Record State : Type := {
  posts : nat;
  clock_reads : nat;
  trace : list Event
}.

Definition initial_state : State :=
  {| posts := 0; clock_reads := 0; trace := [] |}.

Definition M (A : Type) : Type := State -> Result A * State.

Definition ret {A} (a : A) : M A := fun s => (Return a, s).

Definition raise {A} (e : Exn) : M A := fun s => (Raise e, s).

Definition bind {A B} (m : M A) (k : A -> M B) : M B :=
  fun s =>
    match m s with
    | (Return a, s') => k a s'
    | (Raise e, s') => (Raise e, s')
    end.

Notation "x <- m ;; k" := (bind m (fun x => k))
  (at level 61, m at next level, right associativity).
Notation "m ;; k" := (bind m (fun _ => k))
  (at level 61, right associativity).

(** A value or exception produced without effect. *)
Definition lift {A} (r : Exn + A) : M A :=
  match r with inr a => ret a | inl e => raise e end.

(** [try: m  except ...: h]: the handler [h] says, for each exception,
    whether a clause catches it ([Some]) and what the clause does. *)
Definition try_except {A} (m : M A) (h : Exn -> option (M A)) : M A :=
  fun s =>
    match m s with
    | (Return a, s') => (Return a, s')
    | (Raise e, s') =>
        match h e with
        | Some k => k s'
        | None => (Raise e, s')
        end
    end.

(** The state after one more event, after one more post and after one
    more clock read. *)
Definition log_event (ev : Event) (s : State) : State :=
  {| posts := posts s; clock_reads := clock_reads s;
     trace := trace s ++ [ev] |}.

Definition count_post (s : State) : State :=
  {| posts := S (posts s); clock_reads := clock_reads s; trace := trace s |}.

Definition count_clock_read (s : State) : State :=
  {| posts := posts s; clock_reads := S (clock_reads s); trace := trace s |}.

Definition emit (ev : Event) : M unit :=
  fun s => (Return tt, log_event ev s).

(** [await asyncio.sleep(n)] *)
Definition sleep (n : Z) : M unit := emit (EvSleep n).

(** How one iteration of a [for] body ends: by [return] or by reaching
    the next iteration ([continue] or falling off the end). *)
Inductive LoopStep (A : Type) : Type :=
| Returned (a : A)
| NextIteration.

Arguments Returned {A} a.
Arguments NextIteration {A}.

(** [for i in items: body(i)] followed by [after]. *)
Fixpoint for_each {A} (body : Z -> M (LoopStep A)) (items : list Z)
    (after : M A) : M A :=
  match items with
  | [] => after
  | i :: rest =>
      step <- body i ;;
      match step with
      | Returned a => ret a
      | NextIteration => for_each body rest after
      end
  end.

(* ------------------------------------------------------------------ *)
(** ** config.py *)
(* ------------------------------------------------------------------ *)

Record Config : Type := {
  proxy_api_token : pystr;
  proxy_api_base : pystr;
  llm_provider : pystr;
  model_name : pystr;
  host : pystr;
  port : Z
}.

Definition api_base_url (self : Config) : pystr :=
  proxy_api_base self ++ u8 "/" ++ llm_provider self ++ u8 "/v1".

(* ------------------------------------------------------------------ *)
(** ** llm_client.py *)
(* ------------------------------------------------------------------ *)

Record InvestmentLLMClient : Type := {
  base_url : pystr;
  api_token : pystr;
  model : pystr
}.

(** [InvestmentLLMClient.__init__] *)
Definition InvestmentLLMClient_init (config : Config) : InvestmentLLMClient :=
  {| base_url := api_base_url config;
     api_token := proxy_api_token config;
     model := model_name config |}.

Definition system_content : pystr :=
  u8 "Ты - профессиональный консультант по инвестиционным продуктам.

Твоя задача:
- Отвечать на вопросы клиентов об инвестиционных паях, ЗПИФ и инвестиционных услугах
- Использовать только предоставленную информацию из базы знаний
- Давать точные и профессиональные ответы
- Если информации нет в базе знаний - честно сказать об этом
- Не давать финансовых советов, только информацию о продуктах

Стиль: деловой, но понятный для клиентов.".

(** The user message when a context is given. *)
Definition user_content_with_context (user_query : pystr)
    (context : option pystr) : pystr :=
  u8 "Информация из базы знаний:

" ++ format_opt context ++ u8 "

Вопрос клиента: " ++ user_query ++ u8 "

Ответь на основе предоставленной информации.".

(** The user message when no context is given. *)
Definition user_content_without_context (user_query : pystr) : pystr :=
  u8 "Вопрос клиента: " ++ user_query ++ u8 "

В базе знаний не найдено релевантной информации. Ответь что не можешь дать точный ответ и предложи обратиться к специалистам.".

Definition _build_messages (user_query : pystr) (context : option pystr)
    : list Message :=
  let messages := [ {| role := u8 "system"; content := system_content |} ] in
  let user_content :=
    if truthy_opt context then user_content_with_context user_query context
    else user_content_without_context user_query in
  messages ++ [ {| role := u8 "user"; content := user_content |} ].

(** The replies and error messages of [generate_response]. *)
Definition msg_ask_question : pystr :=
  u8 "Пожалуйста, задайте вопрос об инвестиционных продуктах.".

Definition msg_token_missing : pystr :=
  u8 "Сервис временно недоступен. Обратитесь к специалистам по телефону.".

Definition msg_api_error (status : Z) (error_detail : pystr) : pystr :=
  u8 "API error " ++ str_of_int status ++ u8 ": " ++ error_detail.

Definition msg_timeout : pystr := u8 "Превышен таймаут запроса к LLM".

Definition msg_network (e : pystr) : pystr := u8 "Сетевая ошибка: " ++ e.

Definition msg_exhausted : pystr := u8 "Исчерпаны попытки запроса к LLM".

Definition msg_internal (e : pystr) : pystr := u8 "Внутренняя ошибка: " ++ e.

Definition make_payload (self : InvestmentLLMClient) (messages : list Message)
    : Payload :=
  {| payload_model := model self;
     payload_messages := messages;
     payload_temperature := 3 # 10;
     payload_max_tokens := 800;
     payload_top_p := 9 # 10 |}.

Definition make_headers (self : InvestmentLLMClient) : list (pystr * pystr) :=
  [ (u8 "Content-Type", u8 "application/json");
    (u8 "Authorization", u8 "Bearer " ++ api_token self);
    (u8 "User-Agent", u8 "Investment-RAG-Bot/1.0") ].

Definition completions_url (self : InvestmentLLMClient) : pystr :=
  base_url self ++ u8 "/chat/completions".

(** [result["choices"][0]["message"]["content"]] *)
Definition first_choice_content (result : JSON) : Exn + JSON :=
  match getitem_key result (u8 "choices") with
  | inl e => inl e
  | inr choices =>
      match getitem_0 choices with
      | inl e => inl e
      | inr choice =>
          match getitem_key choice (u8 "message") with
          | inl e => inl e
          | inr message => getitem_key message (u8 "content")
          end
      end
  end.

Section Pipeline.

(** Kept abstract: the clock's values, the rounded difference
    [round(t1 - t0, 3)] of two of them (floating point), and Python's
    [str(e)] of an exception. *)
Variable Time : Type.
Variable elapsed_rounded : Time -> Time -> Time.
Variable str_exc : Exn -> pystr.

(** The outside world: what retrieval answers to a query, how the [n]-th
    post ends and what the [n]-th clock read shows. *)
Record Env : Type := {
  kb_search : pystr -> Z -> Exn + option pystr;
  http_post : nat -> Exn + Response;
  clock : nat -> Time
}.

Variable env : Env.

(** [await self.http_client.post(url, headers=..., json=...)] *)
Definition post (url : pystr) (headers : list (pystr * pystr))
    (payload : Payload) : M Response :=
  fun s =>
    let s' := count_post (log_event (EvPost url headers payload) s) in
    match http_post env (posts s) with
    | inr response => (Return response, s')
    | inl e => (Raise e, s')
    end.

(** [time.time()] *)
Definition time_time : M Time :=
  fun s => (Return (clock env (clock_reads s)), count_clock_read s).

(** [knowledge_base.search(query, top_k=...)] *)
Definition search (query : pystr) (top_k : Z) : M (option pystr) :=
  emit (EvSearch query top_k) ;; lift (kb_search env query top_k).

(** The body of the retry loop of [generate_response], for one value of
    [attempt]: what stands under the inner [try], ... *)
Definition attempt_try (self : InvestmentLLMClient)
    (headers : list (pystr * pystr)) (payload : Payload) (attempt : Z)
    : M (LoopStep pystr) :=
  response <- post (completions_url self) headers payload ;;
  if status_code response =? 200 then
    result <- lift (json response) ;;
    answer <- lift (first_choice_content result) ;;
    _ <- lift (py_len answer) ;;
    stripped <- lift (py_strip answer) ;;
    ret (Returned stripped)
  else if status_code response =? 429 then
    let wait_time := 2 ^ attempt in
    sleep wait_time ;;
    ret NextIteration
  else
    let error_detail := slice_to 200 (text response) in
    raise (LLMAPIError (msg_api_error (status_code response) error_detail)).

(** ... its two [except] clauses, ... *)
Definition attempt_except (attempt : Z) (e : Exn)
    : option (M (LoopStep pystr)) :=
  match e with
  | TimeoutException _ =>
      Some (if attempt =? 2 then raise (LLMAPIError msg_timeout)
            else sleep 1 ;; ret NextIteration)
  | RequestError _ =>
      Some (if attempt =? 2
            then raise (LLMAPIError (msg_network (str_exc e)))
            else sleep 1 ;; ret NextIteration)
  | _ => None
  end.

(** ... and the two together. *)
Definition attempt_body (self : InvestmentLLMClient)
    (headers : list (pystr * pystr)) (payload : Payload) (attempt : Z)
    : M (LoopStep pystr) :=
  try_except (attempt_try self headers payload attempt)
    (attempt_except attempt).

Definition generate_response (self : InvestmentLLMClient)
    (user_query : pystr) (context : option pystr) : M pystr :=
  if negb (truthy user_query) || negb (truthy (strip user_query)) then
    ret msg_ask_question
  else if negb (truthy (api_token self)) then
    ret msg_token_missing
  else
    try_except
      (let messages := _build_messages user_query context in
       let payload := make_payload self messages in
       let headers := make_headers self in
       for_each (attempt_body self headers payload) (py_range 3)
         (raise (LLMAPIError msg_exhausted)))
      (fun e =>
         match e with
         | LLMAPIError _ => None
         | _ => Some (raise (LLMAPIError (msg_internal (str_exc e))))
         end).

Definition health_check (self : InvestmentLLMClient) : M bool :=
  try_except
    (test_response <-
       generate_response self (u8 "Тест") (Some (u8 "Тестовая информация")) ;;
     ret (truthy test_response))
    (fun _ => Some (ret false)).

(* ------------------------------------------------------------------ *)
(** ** app.py *)
(* ------------------------------------------------------------------ *)

Record ChatRequest : Type := {
  query : pystr
}.

Record ChatResponse : Type := {
  response : pystr;
  context_found : bool;
  processing_time : option Time
}.

(** Why a request body is refused. *)
Inductive ValidationError : Type :=
| NotUnicode
| MinLength (limit : Z)
| MaxLength (limit : Z)
| ValidatorRaised (e : Exn).

(** The validator of the field [query]. *)
Definition validate_query (v : pystr) : Exn + pystr :=
  if negb (truthy v) || negb (truthy (strip v)) then
    inl (ValueError (u8 "Вопрос не может быть пустым"))
  else inr (strip v).

(** Building a [ChatRequest] from the text given for [query]: the field
    is a string, which a text holding a surrogate is not for the
    validation; then come the length limits of the field, then its
    validator. *)
Definition ChatRequest_parse (v : pystr) : ValidationError + ChatRequest :=
  if has_surrogate v then inl NotUnicode
  else if len v <? 1 then inl (MinLength 1)
  else if 1000 <? len v then inl (MaxLength 1000)
  else match validate_query v with
       | inl e => inl (ValidatorRaised e)
       | inr q => inr {| query := q |}
       end.

Definition fallback_with_context (context : option pystr) : pystr :=
  u8 "Извините, сервис генерации ответов временно недоступен. Вот информация из нашей базы знаний:

" ++ format_opt context.

Definition fallback_without_context : pystr :=
  u8 "Извините, сервис временно недоступен. Пожалуйста, обратитесь к специалистам по телефону или через сайт.".

Definition internal_error_detail : pystr :=
  u8 "Внутренняя ошибка сервера. Попробуйте позже.".

Definition process_chat_request (llm_client : InvestmentLLMClient)
    (request : ChatRequest) : M ChatResponse :=
  start_time <- time_time ;;
  try_except
    (context <- search (query request) 3 ;;
     let context_found := truthy_opt context in
     response_text <-
       try_except
         (generate_response llm_client (query request) context)
         (fun e =>
            match e with
            | LLMAPIError _ =>
                Some (ret (if context_found then fallback_with_context context
                           else fallback_without_context))
            | _ => None
            end) ;;
     end_time <- time_time ;;
     let processing_time := elapsed_rounded end_time start_time in
     ret {| response := response_text;
            context_found := context_found;
            processing_time := Some processing_time |})
    (fun _ => Some (raise (HTTPException 500 internal_error_detail))).

(** What the serving layer answers to [POST /chat]. *)
Inductive Reply : Type :=
| ReplyOk (r : ChatResponse)
| ReplyInvalid (e : ValidationError)
| ReplyError (status : Z) (detail : pystr).

(** The route [POST /chat]: the body is turned into a [ChatRequest]; the
    handler runs only on a valid one. A [Reply] is what the route has to
    send; writing it out as an HTTP response is left to the serving
    layer and is not part of the model. *)
Definition post_chat (llm_client : InvestmentLLMClient) (raw_query : pystr)
    : M Reply :=
  match ChatRequest_parse raw_query with
  | inl e => ret (ReplyInvalid e)
  | inr request =>
      try_except
        (r <- process_chat_request llm_client request ;; ret (ReplyOk r))
        (fun e =>
           match e with
           | HTTPException status detail => Some (ret (ReplyError status detail))
           | _ => None
           end)
  end.

End Pipeline.

(* ------------------------------------------------------------------ *)
(** ** Outcomes of an attempt, and concrete scenarios *)
(* ------------------------------------------------------------------ *)

(** An outcome of a post after which the loop goes on, when the attempt
    is not the last one: a 429 answer, a timeout or a transport error. *)
Definition retried (o : Exn + Response) : Prop :=
  match o with
  | inr r => status_code r = 429
  | inl (TimeoutException _) => True
  | inl (RequestError _) => True
  | inl _ => False
  end.

(** The event of a completion call for a query and a context. *)
Definition completion_call (self : InvestmentLLMClient) (user_query : pystr)
    (context : option pystr) : Event :=
  EvPost (completions_url self) (make_headers self)
    (make_payload self (_build_messages user_query context)).

(** The state in which [process_chat_request], started in [s], calls
    [generate_response]: after the first clock read and the search. *)
Definition state_at_generation (request_query : pystr) (s : State) : State :=
  log_event (EvSearch request_query 3) (count_clock_read s).

(** What is allowed in the trace of a generation call: the completion
    call of its query and context, and sleeps. *)
Definition generation_event (self : InvestmentLLMClient) (user_query : pystr)
    (context : option pystr) (ev : Event) : Prop :=
  ev = completion_call self user_query context \/ is_sleep ev = true.

(** The trace produced after a state [s] by a run that ends in [s']. *)
Definition extends (s s' : State) (events : list Event) : Prop :=
  trace s' = trace s ++ events.

Module Scenario.

Definition example_config (token : pystr) : Config :=
  {| proxy_api_token := token;
     proxy_api_base := u8 "https://api.proxyapi.ru";
     llm_provider := u8 "openai";
     model_name := u8 "gpt-3.5-turbo";
     host := u8 "127.0.0.1";
     port := 8000 |}.

Definition configured_client : InvestmentLLMClient :=
  InvestmentLLMClient_init (example_config (u8 "sk-test")).

Definition unconfigured_client : InvestmentLLMClient :=
  InvestmentLLMClient_init (example_config []).

Definition rate_limited : Response :=
  {| status_code := 429; text := u8 "Too Many Requests";
     json := inl (ValueError (u8 "no body")) |}.

Definition server_error : Response :=
  {| status_code := 500; text := u8 "Internal Server Error";
     json := inl (ValueError (u8 "no body")) |}.

Definition completion_body (answer : pystr) : JSON :=
  JDict [ (u8 "choices",
           JList [ JDict [ (u8 "message",
                            JDict [ (u8 "role", JStr (u8 "assistant"));
                                    (u8 "content", JStr answer) ]) ] ]) ].

Definition completion (answer : pystr) : Response :=
  {| status_code := 200; text := u8 "{...}";
     json := inr (completion_body answer) |}.

Definition answer_text : pystr := u8 "  Доходность не гарантирована.
".

Definition question : pystr := u8 "Какая доходность у ЗПИФ?".

Definition found_context : pystr := u8 "ЗПИФ - закрытый паевой инвестиционный фонд.".

Definition str_exc (e : Exn) : pystr :=
  match e with
  | LLMAPIError m | ValueError m => m
  | HTTPException _ d | TimeoutException d | RequestError d
  | OtherException d => d
  | KeyError _ => u8 "KeyError"
  | IndexError => u8 "IndexError"
  | TypeError => u8 "TypeError"
  | AttributeError => u8 "AttributeError"
  end.

(** A world with integer clock readings, where retrieval always answers
    [found] and the posts end as [answers] says. *)
Definition world (found : option pystr) (answers : nat -> Exn + Response)
    : Env Z :=
  {| kb_search := fun _ _ => inr found;
     http_post := answers;
     clock := fun n => Z.of_nat n |}.

Definition always_429 (n : nat) : Exn + Response := inr rate_limited.

Definition always_500 (n : nat) : Exn + Response := inr server_error.

Definition ok_on_third (n : nat) : Exn + Response :=
  match n with
  | 2%nat => inr (completion answer_text)
  | _ => inr rate_limited
  end.

Definition timeout_then_ok (n : nat) : Exn + Response :=
  match n with
  | 0%nat => inl (TimeoutException (u8 "timed out"))
  | _ => inr (completion answer_text)
  end.

End Scenario.

(* ------------------------------------------------------------------ *)
(** ** app.py: the monitoring routes *)
(* ------------------------------------------------------------------ *)

Section Monitoring.

Variable Time : Type.
Variable str_exc : Exn -> pystr.
Variable env : Env Time.

(** What [knowledge_base.get_stats()] does: return a value or raise. The
    module is outside the modelled files; its answer is given. *)
Variable kb_get_stats : Exn + JSON.

Definition get_stats : M JSON := lift kb_get_stats.

(** [GET /health]. The statistics are fetched, then the client is probed,
    then the answer is built, its items in the order of the literal. *)
Definition app_health_check (config : Config)
    (llm_client : InvestmentLLMClient) : M JSON :=
  try_except
    (kb_stats <- get_stats ;;
     llm_health <- health_check str_exc env llm_client ;;
     documents <- lift (getitem_key kb_stats (u8 "total_documents")) ;;
     dimension <- lift (getitem_key kb_stats (u8 "embedding_dimension")) ;;
     ret (JDict
            [ (u8 "status",
               JStr (if llm_health then u8 "healthy" else u8 "degraded"));
              (u8 "components",
               JDict
                 [ (u8 "knowledge_base",
                    JDict [ (u8 "status", JStr (u8 "healthy"));
                            (u8 "documents", documents);
                            (u8 "embedding_dimension", dimension) ]);
                   (u8 "llm_client",
                    JDict [ (u8 "status",
                             JStr (if llm_health then u8 "healthy"
                                   else u8 "error"));
                            (u8 "model", JStr (model_name config)) ]) ]);
              (u8 "version", JStr (u8 "1.0.0")) ]))
    (fun e =>
       Some (ret (JDict [ (u8 "status", JStr (u8 "error"));
                          (u8 "error", JStr (str_exc e)) ]))).

Definition stats_error_detail : pystr := u8 "Ошибка получения статистики".

(** [GET /stats] *)
Definition get_system_stats (config : Config) : M JSON :=
  try_except
    (kb_stats <- get_stats ;;
     ret (JDict
            [ (u8 "knowledge_base", kb_stats);
              (u8 "config",
               JDict [ (u8 "model", JStr (model_name config));
                       (u8 "provider", JStr (llm_provider config)) ]) ]))
    (fun _ => Some (raise (HTTPException 500 stats_error_detail))).

End Monitoring.

(* ------------------------------------------------------------------ *)
(** ** Vocabulary of the further properties *)
(* ------------------------------------------------------------------ *)

(** A text made of whitespace only (the empty text included). *)
Definition all_space (s : pystr) : bool := forallb isspace s.

(** An exception of a post after which the loop goes on, when the attempt
    is not the last one. *)
Definition transient (e : Exn) : Prop :=
  match e with
  | TimeoutException _ | RequestError _ => True
  | _ => False
  end.

(** What [result["choices"][0]["message"]["content"]] must be for a 200
    answer to be returned: a string. *)
Definition is_string (v : JSON) : bool :=
  match v with JStr _ => true | _ => false end.

(** The headers and the body of the completion calls of a client. *)
Definition expected_headers (self : InvestmentLLMClient)
    : list (pystr * pystr) :=
  [ (u8 "Content-Type", u8 "application/json");
    (u8 "Authorization", u8 "Bearer " ++ api_token self);
    (u8 "User-Agent", u8 "Investment-RAG-Bot/1.0") ].

Definition expected_payload (self : InvestmentLLMClient)
    (messages : list Message) : Payload :=
  {| payload_model := model self;
     payload_messages := messages;
     payload_temperature := 3 # 10;
     payload_max_tokens := 800;
     payload_top_p := 9 # 10 |}.

(** A dict with these items maps the key [k] to [v]: the first item
    with that key holds [v]. *)
Definition dict_maps (items : list (pystr * JSON)) (k : pystr) (v : JSON)
    : Prop :=
  exists before after,
    items = before ++ (k, v) :: after
    /\ Forall (fun item => fst item <> k) before.

(** The shape of a completion: an object whose "choices" is a list, the
    first element of which is an object whose "message" is an object
    whose "content" is the string [c]. The other choices are free. *)
Definition first_choice_says (body : JSON) (c : pystr) : Prop :=
  exists items choice others message,
    body = JDict items
    /\ dict_maps items (u8 "choices") (JList (JDict choice :: others))
    /\ dict_maps choice (u8 "message") (JDict message)
    /\ dict_maps message (u8 "content") (JStr c).

(** A text that neither starts nor ends with whitespace. *)
Definition no_space_at_ends (t : pystr) : Prop :=
  match t with [] => True | first :: _ => isspace first = false end
  /\ match rev t with [] => True | last :: _ => isspace last = false end.

(** [t] is [c] without the whitespace around it: [c] is [t] between two
    runs of whitespace, and [t] has no whitespace at its ends. *)
Definition trimmed_from (c t : pystr) : Prop :=
  (exists before after,
     c = before ++ t ++ after
     /\ all_space before = true /\ all_space after = true)
  /\ no_space_at_ends t.

Module MoreScenarios.

Import Scenario.

Definition always_timeout (n : nat) : Exn + Response :=
  inl (TimeoutException (u8 "timed out")).

Definition connection_refused (n : nat) : Exn + Response :=
  inl (RequestError (u8 "connection refused")).

Definition empty_choices : Response :=
  {| status_code := 200; text := u8 "{...}";
     json := inr (JDict [ (u8 "choices", JList []) ]) |}.

Definition always_empty_choices (n : nat) : Exn + Response :=
  inr empty_choices.

Definition blank_answer (n : nat) : Exn + Response :=
  inr (completion (u8 "  
 ")).

Definition always_ok (n : nat) : Exn + Response :=
  inr (completion answer_text).

Definition timeout_then_500 (n : nat) : Exn + Response :=
  match n with
  | 0%nat => inl (TimeoutException (u8 "timed out"))
  | _ => inr server_error
  end.

Definition padded_question : pystr := u8 "  Какая доходность у ЗПИФ?  ".

(** A completion with two choices that differ. *)
Definition two_choices_body : JSON :=
  JDict [ (u8 "id", JStr (u8 "chatcmpl-1"));
          (u8 "choices",
           JList [ JDict [ (u8 "index", JInt 0);
                           (u8 "message",
                            JDict [ (u8 "role", JStr (u8 "assistant"));
                                    (u8 "content", JStr answer_text) ]) ];
                   JDict [ (u8 "index", JInt 1);
                           (u8 "message",
                            JDict [ (u8 "role", JStr (u8 "assistant"));
                                    (u8 "content",
                                     JStr (u8 " Другой ответ. ")) ]) ] ]) ].

Definition two_choices : Response :=
  {| status_code := 200; text := u8 "{...}"; json := inr two_choices_body |}.

Definition timeout_then_two_choices (n : nat) : Exn + Response :=
  match n with
  | 0%nat => inl (TimeoutException (u8 "timed out"))
  | _ => inr two_choices
  end.

Definition kb_stats : JSON :=
  JDict [ (u8 "total_documents", JInt 42);
          (u8 "embedding_dimension", JInt 384) ].

(** A world whose retrieval raises. *)
Definition broken_retrieval (answers : nat -> Exn + Response) : Env Z :=
  {| kb_search := fun _ _ => inl (OtherException (u8 "index not loaded"));
     http_post := answers;
     clock := fun n => Z.of_nat n |}.

End MoreScenarios.

(* ------------------------------------------------------------------ *)
(** ** Substrings *)
(* ------------------------------------------------------------------ *)

Lemma contains_middle (pre c post : pystr) : contains c (pre ++ c ++ post).
Proof. exists pre, post. reflexivity. Qed.

Lemma contains_suffix (pre c : pystr) : contains c (pre ++ c).
Proof. exists pre, []. rewrite app_nil_r. reflexivity. Qed.

Lemma contains_later (pre c hay : pystr) :
  contains c hay -> contains c (pre ++ hay).
Proof.
  intros (a & b & ->). exists (pre ++ a), b.
  rewrite <- app_assoc. reflexivity.
Qed.

(** The test decides the proposition, in the direction used below. *)
Lemma starts_with_prefix (p s : pystr) :
  starts_with p s = true -> exists rest, s = p ++ rest.
Proof.
  revert s. induction p as [|x p IH]; intros s H.
  - exists s. reflexivity.
  - destruct s as [|y s]; [discriminate|].
    cbn in H. apply andb_prop in H. destruct H as [Hxy Hps].
    apply N.eqb_eq in Hxy. subst y.
    destruct (IH _ Hps) as [rest ->]. exists rest. reflexivity.
Qed.

Lemma containsb_contains (needle hay : pystr) :
  containsb needle hay = true -> contains needle hay.
Proof.
  induction hay as [|y hay IH]; intros H.
  - cbn in H. rewrite orb_false_r in H.
    destruct (starts_with_prefix _ _ H) as [rest E].
    exists [], rest. exact E.
  - cbn [containsb] in H. apply orb_prop in H. destruct H as [H | H].
    + destruct (starts_with_prefix _ _ H) as [rest E].
      exists [], rest. exact E.
    + destruct (IH H) as (a & b & ->). exists (y :: a), b. reflexivity.
Qed.

(* ------------------------------------------------------------------ *)
(** ** Properties of the generation client *)
(* ------------------------------------------------------------------ *)

Section ClientProperties.

Variable Time : Type.
Variable str_exc : Exn -> pystr.
Variable env : Env Time.
Variable self : InvestmentLLMClient.

Local Abbreviation generate := (generate_response str_exc env self).
Local Abbreviation attempt := (attempt_body str_exc env self).

Lemma strip_nonempty (q : pystr) : truthy (strip q) = true -> truthy q = true.
Proof.
  destruct q as [|c q]; [ cbn; discriminate | reflexivity ].
Qed.

(** A 429 answer: one post, a sleep of [2 ^ attempt], next iteration. *)
Lemma attempt_rate_limited h p a s r :
  http_post env (posts s) = inr r ->
  status_code r = 429 ->
  attempt h p a s =
    (Return NextIteration,
     log_event (EvSleep (2 ^ a))
       (count_post (log_event (EvPost (completions_url self) h p) s))).
Proof.
  intros Hpost Hst.
  unfold attempt_body, attempt_try, attempt_except, try_except, bind, post.
  rewrite Hpost, Hst. reflexivity.
Qed.

(** A 200 answer whose first choice holds a string: one post, then
    [return] of the stripped string. *)
Lemma attempt_success h p a s r body c :
  http_post env (posts s) = inr r ->
  status_code r = 200 ->
  json r = inr body ->
  first_choice_content body = inr (JStr c) ->
  attempt h p a s =
    (Return (Returned (strip c)),
     count_post (log_event (EvPost (completions_url self) h p) s)).
Proof.
  intros Hpost Hst Hjson Hc.
  unfold attempt_body, attempt_try, attempt_except, try_except, bind, post.
  rewrite Hpost, Hst. cbn. rewrite Hjson. cbn. rewrite Hc. reflexivity.
Qed.

(** Any other status: one post, then [LLMAPIError] with the status and
    the first 200 characters of the body. *)
Lemma attempt_api_error h p a s r :
  http_post env (posts s) = inr r ->
  status_code r <> 200 ->
  status_code r <> 429 ->
  attempt h p a s =
    (Raise (LLMAPIError
              (msg_api_error (status_code r) (slice_to 200 (text r)))),
     count_post (log_event (EvPost (completions_url self) h p) s)).
Proof.
  intros Hpost H200 H429.
  unfold attempt_body, attempt_try, attempt_except, try_except, bind, post.
  rewrite Hpost.
  apply Z.eqb_neq in H200. apply Z.eqb_neq in H429.
  rewrite H200, H429. reflexivity.
Qed.

(** A timeout or transport error before the last attempt: one post, a
    sleep of one second, next iteration. *)
Lemma attempt_transient h p a s e :
  http_post env (posts s) = inl e ->
  (exists d, e = TimeoutException d) \/ (exists d, e = RequestError d) ->
  a <> 2 ->
  attempt h p a s =
    (Return NextIteration,
     log_event (EvSleep 1)
       (count_post (log_event (EvPost (completions_url self) h p) s))).
Proof.
  intros Hpost He Ha.
  unfold attempt_body, attempt_try, attempt_except, try_except, bind, post.
  rewrite Hpost. apply Z.eqb_neq in Ha.
  destruct He as [[d ->] | [d ->]]; rewrite Ha; reflexivity.
Qed.

(** With a question and a token, [generate_response] is its retry loop
    under the outer [try]. *)
Lemma generate_response_active q ctx :
  truthy (strip q) = true ->
  truthy (api_token self) = true ->
  generate q ctx =
    try_except
      (for_each
         (attempt (make_headers self)
            (make_payload self (_build_messages q ctx)))
         (py_range 3) (raise (LLMAPIError msg_exhausted)))
      (fun e =>
         match e with
         | LLMAPIError _ => None
         | _ => Some (raise (LLMAPIError (msg_internal (str_exc e))))
         end).
Proof.
  intros Hq Htok. unfold generate_response.
  rewrite (strip_nonempty _ Hq), Hq, Htok. reflexivity.
Qed.

(** Other outcome kept by the loop before its last attempt. *)
Lemma attempt_retried h p a s :
  retried (http_post env (posts s)) ->
  a <> 2 ->
  exists n,
    attempt h p a s =
      (Return NextIteration,
       log_event (EvSleep n)
         (count_post (log_event (EvPost (completions_url self) h p) s))).
Proof.
  intros Hr Ha.
  destruct (http_post env (posts s)) as [e | r] eqn:Hpost.
  - exists 1. apply attempt_transient with (e := e); auto.
    destruct e; cbn in Hr; try contradiction; eauto.
  - exists (2 ^ a). apply attempt_rate_limited with (r := r); auto.
Qed.

(** One step of a [for] loop, by the way its body ends. *)
Lemma for_each_next A (body : Z -> M (LoopStep A)) i rest after s s1 :
  body i s = (Return NextIteration, s1) ->
  for_each body (i :: rest) after s = for_each body rest after s1.
Proof. intros H. cbn. unfold bind. rewrite H. reflexivity. Qed.

Lemma for_each_returned A (body : Z -> M (LoopStep A)) i rest after s s1 a :
  body i s = (Return (Returned a), s1) ->
  for_each body (i :: rest) after s = (Return a, s1).
Proof. intros H. cbn. unfold bind. rewrite H. reflexivity. Qed.

Lemma for_each_raised A (body : Z -> M (LoopStep A)) i rest after s s1 e :
  body i s = (Raise e, s1) ->
  for_each body (i :: rest) after s = (Raise e, s1).
Proof. intros H. cbn. unfold bind. rewrite H. reflexivity. Qed.

(** A 200 answer at attempt [k], all earlier attempts having been
    retried: the stripped content of the first choice is returned. *)
Lemma generate_success_at_attempt q ctx s k r body c :
  truthy (strip q) = true ->
  truthy (api_token self) = true ->
  (k < 3)%nat ->
  (forall j, (j < k)%nat -> retried (http_post env (posts s + j))) ->
  http_post env (posts s + k) = inr r ->
  status_code r = 200 ->
  json r = inr body ->
  first_choice_content body = inr (JStr c) ->
  exists s', generate q ctx s = (Return (strip c), s')
             /\ posts s' = (posts s + k + 1)%nat
             /\ clock_reads s' = clock_reads s.
Proof.
  intros Hq Htok Hk Hprev Hpost Hst Hjson Hc.
  rewrite generate_response_active by assumption.
  unfold try_except. change (py_range 3) with [0; 1; 2].
  set (h := make_headers self).
  set (p := make_payload self (_build_messages q ctx)).
  destruct k as [|[|[|k]]]; try lia.
  - rewrite Nat.add_0_r in Hpost.
    erewrite for_each_returned
      by (eapply attempt_success; eassumption).
    eexists; split; [reflexivity|]. cbn. split; lia.
  - destruct (@attempt_retried h p 0 s) as [n0 E0].
    { specialize (Hprev 0%nat). rewrite Nat.add_0_r in Hprev.
      apply Hprev. lia. }
    { lia. }
    erewrite for_each_next by exact E0.
    replace (posts s + 1)%nat with (S (posts s)) in Hpost by lia.
    erewrite for_each_returned
      by (eapply attempt_success; [exact Hpost | eassumption ..]).
    eexists; split; [reflexivity|]. cbn. split; lia.
  - destruct (@attempt_retried h p 0 s) as [n0 E0].
    { specialize (Hprev 0%nat). rewrite Nat.add_0_r in Hprev.
      apply Hprev. lia. }
    { lia. }
    erewrite for_each_next by exact E0.
    match goal with
    | |- context [for_each _ _ _ ?s1] =>
        destruct (@attempt_retried h p 1 s1) as [n1 E1]
    end.
    { specialize (Hprev 1%nat).
      replace (posts s + 1)%nat with (S (posts s)) in Hprev by lia.
      apply Hprev. lia. }
    { lia. }
    erewrite for_each_next by exact E1.
    replace (posts s + 2)%nat with (S (S (posts s))) in Hpost by lia.
    erewrite for_each_returned
      by (eapply attempt_success; [exact Hpost | eassumption ..]).
    eexists; split; [reflexivity|]. cbn. split; lia.
Qed.

(** C2 (as amended). Without a token [generate_response] returns at once:
    no post, no sleep, the state is untouched. What it returns is an
    ordinary text, not an exception: the fixed "service unavailable,
    contact the specialists by phone" reply (or, for a blank question, the
    request to ask one). *)
Theorem generate_without_token_returns_text q ctx s :
  truthy (api_token self) = false ->
  generate q ctx s =
    (Return (if negb (truthy q) || negb (truthy (strip q))
             then msg_ask_question else msg_token_missing), s).
Proof.
  intros Htok. unfold generate_response. rewrite Htok.
  destruct (negb (truthy q) || negb (truthy (strip q))); reflexivity.
Qed.

(** C3. Three 429 answers in a row: sleeps of 1, 2 and 4 seconds, one
    after each of the three posts, then [LLMAPIError] with the "attempts
    exhausted" message; no fourth post follows the last sleep. *)
Theorem rate_limited_three_times_exhausts q ctx s :
  truthy (strip q) = true ->
  truthy (api_token self) = true ->
  (forall k, (k < 3)%nat ->
     exists r, http_post env (posts s + k) = inr r /\ status_code r = 429) ->
  exists s',
    generate q ctx s = (Raise (LLMAPIError msg_exhausted), s')
    /\ extends s s' [ completion_call self q ctx; EvSleep 1;
                      completion_call self q ctx; EvSleep 2;
                      completion_call self q ctx; EvSleep 4 ]
    /\ posts s' = (posts s + 3)%nat.
Proof.
  intros Hq Htok H429.
  destruct (H429 0%nat) as (r0 & P0 & S0); [lia|].
  destruct (H429 1%nat) as (r1 & P1 & S1); [lia|].
  destruct (H429 2%nat) as (r2 & P2 & S2); [lia|].
  rewrite Nat.add_0_r in P0.
  replace (posts s + 1)%nat with (S (posts s)) in P1 by lia.
  replace (posts s + 2)%nat with (S (S (posts s))) in P2 by lia.
  rewrite generate_response_active by assumption.
  unfold try_except. change (py_range 3) with [0; 1; 2].
  erewrite for_each_next
    by (eapply attempt_rate_limited; [exact P0 | exact S0]).
  erewrite for_each_next
    by (eapply attempt_rate_limited; [exact P1 | exact S1]).
  erewrite for_each_next
    by (eapply attempt_rate_limited; [exact P2 | exact S2]).
  eexists; split; [reflexivity|]. split.
  - unfold extends. cbn. repeat rewrite <- app_assoc. reflexivity.
  - cbn. lia.
Qed.

(** C4. 429 on attempts 0 and 1, success on attempt 2: the stripped text
    of that answer is returned, and the sleeps of the call add up to
    1 + 2 = 3 seconds. *)
Theorem rate_limited_twice_then_success q ctx s r body c :
  truthy (strip q) = true ->
  truthy (api_token self) = true ->
  (exists r0, http_post env (posts s) = inr r0 /\ status_code r0 = 429) ->
  (exists r1, http_post env (posts s + 1) = inr r1 /\ status_code r1 = 429) ->
  http_post env (posts s + 2) = inr r ->
  status_code r = 200 ->
  json r = inr body ->
  first_choice_content body = inr (JStr c) ->
  exists s' events,
    generate q ctx s = (Return (strip c), s')
    /\ extends s s' events
    /\ events = [ completion_call self q ctx; EvSleep 1;
                  completion_call self q ctx; EvSleep 2;
                  completion_call self q ctx ]
    /\ total_sleep events = 1 + 2.
Proof.
  intros Hq Htok (r0 & P0 & S0) (r1 & P1 & S1) P2 S2 Hjson Hc.
  replace (posts s + 1)%nat with (S (posts s)) in P1 by lia.
  replace (posts s + 2)%nat with (S (S (posts s))) in P2 by lia.
  rewrite generate_response_active by assumption.
  unfold try_except. change (py_range 3) with [0; 1; 2].
  erewrite for_each_next
    by (eapply attempt_rate_limited; [exact P0 | exact S0]).
  erewrite for_each_next
    by (eapply attempt_rate_limited; [exact P1 | exact S1]).
  erewrite for_each_returned
    by (eapply attempt_success; [exact P2 | eassumption ..]).
  eexists; eexists; split; [reflexivity|]. split; [|split].
  - unfold extends. cbn. repeat rewrite <- app_assoc. reflexivity.
  - reflexivity.
  - reflexivity.
Qed.

(** C5. A first answer whose status is neither 200 nor 429: [LLMAPIError]
    at once, its message holding the status and the first 200 characters
    of the body; the call made one post and no sleep. *)
Theorem api_error_on_first_attempt q ctx s r :
  truthy (strip q) = true ->
  truthy (api_token self) = true ->
  http_post env (posts s) = inr r ->
  status_code r <> 200 ->
  status_code r <> 429 ->
  exists s' msg,
    generate q ctx s = (Raise (LLMAPIError msg), s')
    /\ msg = msg_api_error (status_code r) (slice_to 200 (text r))
    /\ contains (str_of_int (status_code r)) msg
    /\ contains (slice_to 200 (text r)) msg
    /\ extends s s' [ completion_call self q ctx ]
    /\ posts s' = S (posts s)
    /\ total_sleep [ completion_call self q ctx ] = 0.
Proof.
  intros Hq Htok Hpost H200 H429.
  rewrite generate_response_active by assumption.
  unfold try_except. change (py_range 3) with [0; 1; 2].
  erewrite for_each_raised
    by (eapply attempt_api_error; eassumption).
  eexists; eexists; split; [reflexivity|].
  split; [reflexivity|]. split; [|split; [|split; [|split]]].
  - exists (u8 "API error "), (u8 ": " ++ slice_to 200 (text r)).
    reflexivity.
  - exists (u8 "API error " ++ str_of_int (status_code r) ++ u8 ": "), [].
    unfold msg_api_error. rewrite app_nil_r, <- !app_assoc. reflexivity.
  - reflexivity.
  - reflexivity.
  - reflexivity.
Qed.

End ClientProperties.

(* ------------------------------------------------------------------ *)
(** ** Properties of the health probe *)
(* ------------------------------------------------------------------ *)

(** The probe never raises; it answers [True] exactly when its one call
    of [generate_response] returns a non-empty text. *)
Lemma health_check_true_iff Time (str_exc : Exn -> pystr) (env : Env Time)
    self s :
  fst (health_check str_exc env self s) = Return true <->
  exists t, fst (generate_response str_exc env self (u8 "Тест")
                   (Some (u8 "Тестовая информация")) s) = Return t
            /\ t <> [].
Proof.
  unfold health_check, try_except, bind, ret.
  destruct (generate_response _ _ _ _ _ s) as [[t | e] s1]; cbn.
  - destruct t as [|c t]; cbn; split.
    + discriminate.
    + intros (t' & E & N). inversion E; subst. contradiction.
    + intros _. eexists; split; [reflexivity | discriminate].
    + reflexivity.
  - split; [discriminate | intros (t & E & _); discriminate].
Qed.

(** C7, at the failing input. With a client that has no token the probe
    answers [True] in every world, without a post: the reply that
    [generate_response] gives for a missing token is a non-empty text. *)
Theorem health_check_without_token_is_true Time (str_exc : Exn -> pystr)
    (env : Env Time) s :
  health_check str_exc env Scenario.unconfigured_client s = (Return true, s).
Proof. reflexivity. Qed.

(* ------------------------------------------------------------------ *)
(** ** Properties of the request handler *)
(* ------------------------------------------------------------------ *)

Section HandlerProperties.

Variable Time : Type.
Variable elapsed_rounded : Time -> Time -> Time.
Variable str_exc : Exn -> pystr.
Variable env : Env Time.
Variable llm_client : InvestmentLLMClient.

Local Abbreviation generate := (generate_response str_exc env llm_client).
Local Abbreviation handle :=
  (process_chat_request elapsed_rounded str_exc env llm_client).

(** [generate_response] raises nothing but [LLMAPIError]. *)
Lemma generate_raises_only_LLMAPIError q ctx s e s' :
  generate q ctx s = (Raise e, s') -> exists msg, e = LLMAPIError msg.
Proof.
  unfold generate_response.
  destruct (negb (truthy q) || negb (truthy (strip q))); [discriminate|].
  destruct (negb (truthy (api_token llm_client))); [discriminate|].
  unfold try_except.
  match goal with
  | |- context [for_each ?b ?l ?a s] =>
      destruct (for_each b l a s) as [[t | e0] s0]
  end; [discriminate|].
  destruct e0; cbn; intros H; inversion H; eauto.
Qed.

(** The handler, once retrieval has answered: the model's text when
    generation returns, the fallback text when it raises [LLMAPIError]. *)
Lemma process_chat_request_run request s ctx :
  kb_search env (query request) 3 = inr ctx ->
  handle request s =
    match generate (query request) ctx
            (state_at_generation (query request) s) with
    | (Return text, s2) =>
        (Return {| response := text;
                   context_found := truthy_opt ctx;
                   processing_time :=
                     Some (elapsed_rounded (clock env (clock_reads s2))
                             (clock env (clock_reads s))) |},
         count_clock_read s2)
    | (Raise (LLMAPIError _), s2) =>
        (Return {| response := if truthy_opt ctx
                               then fallback_with_context ctx
                               else fallback_without_context;
                   context_found := truthy_opt ctx;
                   processing_time :=
                     Some (elapsed_rounded (clock env (clock_reads s2))
                             (clock env (clock_reads s))) |},
         count_clock_read s2)
    | (Raise _, s2) => (Raise (HTTPException 500 internal_error_detail), s2)
    end.
Proof.
  intros Hkb.
  unfold process_chat_request, try_except, bind, time_time, search, emit,
    lift, state_at_generation.
  cbn. rewrite Hkb. cbn.
  match goal with
  | |- context [generate_response ?a ?b ?c ?d ?e ?f] =>
      destruct (generate_response a b c d e f) as [[t | e0] s2]
  end.
  - reflexivity.
  - destruct e0; reflexivity.
Qed.

(** Without a token the handler answers with the reply that
    [generate_response] gives for a missing token, whatever was retrieved:
    the fallback texts of the handler are not used. *)
Lemma process_chat_request_without_token request s ctx :
  kb_search env (query request) 3 = inr ctx ->
  truthy (strip (query request)) = true ->
  truthy (api_token llm_client) = false ->
  exists r s',
    handle request s = (Return r, s')
    /\ response r = msg_token_missing
    /\ context_found r = truthy_opt ctx
    /\ extends s s' [EvSearch (query request) 3].
Proof.
  intros Hkb Hq Htok.
  rewrite (process_chat_request_run _ _ Hkb).
  unfold generate_response.
  rewrite Hq, Htok.
  replace (truthy (query request)) with true
    by (destruct (query request); [discriminate Hq | reflexivity]).
  cbn [negb orb ret].
  eexists; eexists; split; [reflexivity|].
  cbn [response context_found].
  repeat split.
Qed.

(** C1 (as amended). When generation fails, that is when
    [generate_response] raises, the handler still returns a [ChatResponse];
    its [context_found] says whether retrieval gave a non-empty context;
    with a non-empty context the answer holds that context word for word;
    without one the answer is the fixed text that sends the user to the
    specialists, in which no context is embedded. *)
Theorem fallback_consistent_with_context_found request s ctx e s2 :
  kb_search env (query request) 3 = inr ctx ->
  generate (query request) ctx (state_at_generation (query request) s)
    = (Raise e, s2) ->
  exists r s3,
    handle request s = (Return r, s3)
    /\ context_found r = truthy_opt ctx
    /\ (forall c, ctx = Some c -> truthy c = true ->
          response r = fallback_with_context ctx /\ contains c (response r))
    /\ (truthy_opt ctx = false ->
          response r = fallback_without_context
          /\ contains (u8 "обратитесь к специалистам") (response r)).
Proof.
  intros Hkb Hgen.
  destruct (generate_raises_only_LLMAPIError _ _ _ Hgen) as [msg ->].
  rewrite (process_chat_request_run _ _ Hkb), Hgen.
  eexists; eexists; split; [reflexivity|]. cbn [response context_found].
  split; [reflexivity|]. split.
  - intros c -> Hc. cbn [truthy_opt]. rewrite Hc. split; [reflexivity|].
    apply contains_suffix.
  - intros Hno. rewrite Hno. split; [reflexivity|].
    apply containsb_contains. vm_compute. reflexivity.
Qed.

(** The successful answer in terms of [strip] and of
    [first_choice_content]: a 200 answer at an attempt that is reached
    makes [generate_response] return the stripped content; and when
    retrieval gave a non-empty context the handler's answer has
    [context_found] set and that stripped text, not the context, as its
    text. *)
Theorem success_returns_stripped_model_text q ctx s k r body c :
  truthy (strip q) = true ->
  truthy (api_token llm_client) = true ->
  (k < 3)%nat ->
  (forall j, (j < k)%nat -> retried (http_post env (posts s + j))) ->
  http_post env (posts s + k) = inr r ->
  status_code r = 200 ->
  json r = inr body ->
  first_choice_content body = inr (JStr c) ->
  fst (generate q ctx s) = Return (strip c)
  /\ (forall found, kb_search env q 3 = inr found ->
        truthy_opt found = true ->
        exists rsp s',
          handle {| query := q |} s = (Return rsp, s')
          /\ context_found rsp = true
          /\ response rsp = strip c).
Proof.
  intros Hq Htok Hk Hprev Hpost Hst Hjson Hc. split.
  - destruct (generate_success_at_attempt str_exc env llm_client q ctx s
                Hq Htok Hk Hprev Hpost Hst Hjson Hc) as (s' & E & _).
    rewrite E. reflexivity.
  - intros found Hkb Hfound.
    destruct (generate_success_at_attempt str_exc env llm_client q found
                (state_at_generation q s) Hq Htok Hk Hprev Hpost Hst Hjson Hc)
      as (s' & E & _).
    rewrite (process_chat_request_run {| query := q |} s Hkb). cbn [query].
    rewrite E. eexists; eexists; split; [reflexivity|].
    cbn [response context_found].
    split; [exact Hfound | reflexivity].
Qed.

(** C8. The empty text, three spaces and every text of 1001 characters
    are refused when the request is built: the route answers with a
    validation error and the state is untouched, so neither a search nor
    a post has been made. *)
Theorem invalid_queries_rejected_before_network v s :
  v = [] \/ v = u8 "   " \/ List.length v = 1001%nat ->
  exists e,
    post_chat elapsed_rounded str_exc env llm_client v s
      = (Return (ReplyInvalid Time e), s).
Proof.
  intros [-> | [-> | Hlen]].
  - eexists. reflexivity.
  - eexists. reflexivity.
  - unfold post_chat, ChatRequest_parse, len. rewrite Hlen.
    destruct (has_surrogate v); eexists; reflexivity.
Qed.

(** *** The trace of a request *)

Lemma extends_refl s : extends s s [].
Proof. unfold extends. rewrite app_nil_r. reflexivity. Qed.

Lemma extends_trans s s1 s2 e1 e2 :
  extends s s1 e1 -> extends s1 s2 e2 -> extends s s2 (e1 ++ e2).
Proof.
  unfold extends. intros H1 H2. rewrite H2, H1, app_assoc. reflexivity.
Qed.

(** What stands under the inner [try] makes its post and at most one
    sleep. *)
Lemma attempt_try_state h p a s res s1 :
  attempt_try env llm_client h p a s = (res, s1) ->
  let posted := count_post (log_event (EvPost (completions_url llm_client) h p) s) in
  s1 = posted \/ s1 = log_event (EvSleep (2 ^ a)) posted.
Proof.
  unfold attempt_try, bind, post, lift, sleep, emit, ret, raise.
  destruct (http_post env (posts s)) as [e | r];
    [intros H; inversion H; auto|].
  destruct (status_code r =? 200).
  - destruct (json r) as [e | result]; [intros H; inversion H; auto|].
    destruct (first_choice_content result) as [e | answer];
      [intros H; inversion H; auto|].
    destruct (py_len answer) as [e | n]; [intros H; inversion H; auto|].
    destruct (py_strip answer) as [e | t]; intros H; inversion H; auto.
  - destruct (status_code r =? 429); intros H; inversion H; auto.
Qed.

(** An [except] clause of the loop makes at most a sleep of one second. *)
Lemma attempt_except_state a e k s1 res s' :
  attempt_except str_exc a e = Some k ->
  k s1 = (res, s') ->
  s' = s1 \/ s' = log_event (EvSleep 1) s1.
Proof.
  unfold attempt_except, bind, sleep, emit, ret, raise.
  destruct e; try discriminate;
    intros Hk; inversion Hk; subst; clear Hk;
    destruct (a =? 2); intros H; inversion H; auto.
Qed.

(** One attempt leaves at most its post and one sleep in the trace. *)
Lemma attempt_body_events h p a s res s' :
  attempt_body str_exc env llm_client h p a s = (res, s') ->
  exists evs,
    extends s s' evs
    /\ Forall (fun ev => ev = EvPost (completions_url llm_client) h p
                         \/ is_sleep ev = true) evs.
Proof.
  unfold attempt_body, try_except. intros H.
  destruct (attempt_try env llm_client h p a s) as [r1 s1] eqn:T.
  apply attempt_try_state in T. cbv zeta in T.
  assert (s' = s1 \/ s' = log_event (EvSleep 1) s1) as Hs'.
  { destruct r1 as [x | e]; [inversion H; auto|].
    destruct (attempt_except str_exc a e) as [k|] eqn:K.
    - eapply attempt_except_state; eassumption.
    - inversion H; auto. }
  clear H.
  destruct T as [-> | ->], Hs' as [-> | ->];
    (eexists; split;
     [ unfold extends; cbn [trace log_event count_post];
       rewrite <- ?app_assoc; reflexivity
     | repeat (apply Forall_cons;
               [ first [left; reflexivity | right; reflexivity] | ]);
       apply Forall_nil ]).
Qed.

(** A loop leaves in the trace what its iterations and its ending leave. *)
Lemma for_each_events A (body : Z -> M (LoopStep A)) (after : M A)
    (P : Event -> Prop) :
  (forall i s res s', body i s = (res, s') ->
     exists evs, extends s s' evs /\ Forall P evs) ->
  (forall s res s', after s = (res, s') ->
     exists evs, extends s s' evs /\ Forall P evs) ->
  forall items s res s', for_each body items after s = (res, s') ->
     exists evs, extends s s' evs /\ Forall P evs.
Proof.
  intros Hbody Hafter items.
  induction items as [|i rest IH]; intros s res s' H.
  - exact (Hafter _ _ _ H).
  - cbn [for_each] in H. unfold bind in H.
    destruct (body i s) as [step s1] eqn:E.
    destruct (Hbody _ _ _ _ E) as (e1 & X1 & F1).
    destruct step as [[a | ] | e].
    + inversion H; subst. exists e1. auto.
    + destruct (IH _ _ _ H) as (e2 & X2 & F2).
      exists (e1 ++ e2). split.
      * eapply extends_trans; eassumption.
      * apply Forall_app. auto.
    + inversion H; subst. exists e1. auto.
Qed.

(** A generation call leaves in the trace only sleeps and completion
    calls built from its own query and context. *)
Lemma generate_response_events q ctx s res s' :
  generate q ctx s = (res, s') ->
  exists evs,
    extends s s' evs /\ Forall (generation_event llm_client q ctx) evs.
Proof.
  unfold generate_response.
  destruct (negb (truthy q) || negb (truthy (strip q))).
  { intros H; inversion H; subst. exists []. split; [apply extends_refl | constructor]. }
  destruct (negb (truthy (api_token llm_client))).
  { intros H; inversion H; subst. exists []. split; [apply extends_refl | constructor]. }
  unfold try_except.
  match goal with
  | |- context [for_each ?b ?l ?a s] =>
      destruct (for_each b l a s) as [r0 s0] eqn:E
  end.
  intros H.
  assert (s' = s0) as ->.
  { destruct r0 as [t | e]; [inversion H; reflexivity|].
    destruct e; inversion H; reflexivity. }
  revert E. apply for_each_events.
  - intros i s1 res1 s1'. apply attempt_body_events.
  - intros s1 res1 s1' H1. inversion H1; subst.
    exists []. split; [apply extends_refl | constructor].
Qed.

(** C10. The empty string counts as no context everywhere: its truth
    value, from which [context_found] is computed, is that of [None]; the
    prompt built for it is the prompt built for [None]; and in every
    request the messages of each completion call are those of the branch
    named by the [context_found] of the answer. *)
Theorem empty_context_treated_as_absent q :
  truthy_opt (Some []) = false
  /\ truthy_opt None = false
  /\ _build_messages q (Some []) = _build_messages q None
  /\ (forall s found r s',
        kb_search env q 3 = inr found ->
        handle {| query := q |} s = (Return r, s') ->
        context_found r = truthy_opt found
        /\ exists evs,
             extends s s' evs
             /\ Forall
                  (fun ev => forall url h p, ev = EvPost url h p ->
                     payload_messages p =
                       [ {| role := u8 "system"; content := system_content |};
                         {| role := u8 "user";
                            content :=
                              if context_found r
                              then user_content_with_context q found
                              else user_content_without_context q |} ])
                  evs).
Proof.
  split; [reflexivity|]. split; [reflexivity|].
  split; [unfold _build_messages; cbn [truthy_opt truthy]; reflexivity|].
  intros s found r s' Hkb Hrun.
  rewrite (process_chat_request_run {| query := q |} s Hkb) in Hrun.
  cbn [query] in Hrun.
  destruct (generate q found (state_at_generation q s)) as [res s2] eqn:G.
  destruct (generate_response_events _ _ _ G) as (evs & X & F).
  assert (context_found r = truthy_opt found /\ s' = count_clock_read s2)
    as [Hcf ->].
  { destruct res as [t | e]; [inversion Hrun; subst; auto|].
    destruct e; inversion Hrun; subst; auto. }
  split; [exact Hcf|].
  exists ([EvSearch q 3] ++ evs). split.
  - unfold extends in *. cbn [trace count_clock_read]. rewrite X.
    unfold state_at_generation. cbn [trace log_event count_clock_read].
    rewrite <- app_assoc. reflexivity.
  - apply Forall_app. split.
    + constructor; [|constructor]. intros url h p Hev. discriminate.
    + eapply Forall_impl; [|exact F].
      intros ev [-> | Hsleep] url h p Hev.
      * unfold completion_call in Hev. inversion Hev; subst.
        rewrite Hcf. reflexivity.
      * subst ev. discriminate.
Qed.

End HandlerProperties.

(* ------------------------------------------------------------------ *)
(** ** Properties of the prompt builder *)
(* ------------------------------------------------------------------ *)

(** C9. [_build_messages] is a function of the query and the context
    alone. Its result has two messages: first the system message with the
    fixed consultant text, then one user message. With a non-empty context
    the user message is a fixed frame around the context followed by the
    query; otherwise it is a fixed frame around the query that says that
    nothing relevant was found and asks the model to say it cannot answer
    precisely and to suggest the specialists. *)
Theorem build_messages_shape :
  exists pre mid post head tail : pystr,
    (forall q ctx,
       _build_messages q ctx =
         [ {| role := u8 "system"; content := system_content |};
           {| role := u8 "user";
              content :=
                match ctx with
                | Some c =>
                    if truthy c then pre ++ c ++ mid ++ q ++ post
                    else head ++ q ++ tail
                | None => head ++ q ++ tail
                end |} ])
    /\ contains (u8 "профессиональный консультант по инвестиционным продуктам")
         system_content
    /\ contains (u8 "Использовать только предоставленную информацию из базы знаний")
         system_content
    /\ contains (u8 "Если информации нет в базе знаний - честно сказать об этом")
         system_content
    /\ contains (u8 "Не давать финансовых советов") system_content
    /\ contains (u8 "Информация из базы знаний") pre
    /\ contains (u8 "Вопрос клиента") mid
    /\ contains (u8 "Ответь на основе предоставленной информации") post
    /\ contains (u8 "Вопрос клиента") head
    /\ contains (u8 "В базе знаний не найдено релевантной информации") tail
    /\ contains (u8 "не можешь дать точный ответ") tail
    /\ contains (u8 "предложи обратиться к специалистам") tail.
Proof.
  exists (u8 "Информация из базы знаний:

"), (u8 "

Вопрос клиента: "), (u8 "

Ответь на основе предоставленной информации."), (u8 "Вопрос клиента: "),
    (u8 "

В базе знаний не найдено релевантной информации. Ответь что не можешь дать точный ответ и предложи обратиться к специалистам.").
  split.
  - intros q ctx. unfold _build_messages.
    destruct ctx as [[|c0 c]|]; cbn [truthy_opt truthy app]; reflexivity.
  - repeat split; apply containsb_contains; vm_compute; reflexivity.
Qed.

(* ------------------------------------------------------------------ *)
(** ** Stripping, and the validation of a request *)
(* ------------------------------------------------------------------ *)

Lemma lstrip_split (s : pystr) :
  exists sp, s = sp ++ lstrip s /\ all_space sp = true.
Proof.
  induction s as [|c s IH].
  - exists []. split; reflexivity.
  - cbn [lstrip]. destruct (isspace c) eqn:Hc.
    + destruct IH as (sp & E & Hsp). exists (c :: sp). split.
      * cbn [app]. rewrite <- E. reflexivity.
      * unfold all_space in *. cbn [forallb]. rewrite Hc, Hsp. reflexivity.
    + exists []. split; reflexivity.
Qed.

Lemma lstrip_head (s : pystr) c t : lstrip s = c :: t -> isspace c = false.
Proof.
  induction s as [|x s IH]; cbn [lstrip]; [discriminate|].
  destruct (isspace x) eqn:Hx; [exact IH|].
  intros E. inversion E; subst. exact Hx.
Qed.

Lemma lstrip_fixed (c : pychar) (t : pystr) :
  isspace c = false -> lstrip (c :: t) = c :: t.
Proof. intros H. cbn [lstrip]. rewrite H. reflexivity. Qed.

Lemma lstrip_idempotent (s : pystr) : lstrip (lstrip s) = lstrip s.
Proof.
  destruct (lstrip s) as [|c t] eqn:E; [reflexivity|].
  apply lstrip_fixed. exact (lstrip_head _ E).
Qed.

Lemma lstrip_all_space (s : pystr) : all_space s = true -> lstrip s = [].
Proof.
  induction s as [|c s IH]; [reflexivity|].
  unfold all_space in *. cbn [forallb lstrip]. intros H.
  apply andb_prop in H. destruct H as [Hc Hs].
  rewrite Hc. exact (IH Hs).
Qed.

Lemma all_space_app (a b : pystr) :
  all_space (a ++ b) = all_space a && all_space b.
Proof. apply forallb_app. Qed.

Lemma all_space_rev (s : pystr) : all_space (rev s) = all_space s.
Proof.
  induction s as [|c s IH]; [reflexivity|].
  cbn [rev]. rewrite all_space_app, IH.
  unfold all_space. cbn [forallb].
  rewrite andb_true_r. apply andb_comm.
Qed.

Lemma rstrip_split (a : pystr) :
  exists w, a = rstrip a ++ w /\ all_space w = true.
Proof.
  destruct (lstrip_split (rev a)) as (sp & E & Hsp).
  exists (rev sp). split.
  - unfold rstrip. rewrite <- rev_app_distr, <- E, rev_involutive.
    reflexivity.
  - rewrite all_space_rev. exact Hsp.
Qed.

Lemma rstrip_idempotent (a : pystr) : rstrip (rstrip a) = rstrip a.
Proof.
  unfold rstrip. rewrite rev_involutive, lstrip_idempotent. reflexivity.
Qed.

(** The stripped text sits in the text between two runs of whitespace. *)
Lemma strip_split (s : pystr) :
  exists l r, s = l ++ strip s ++ r
              /\ all_space l = true /\ all_space r = true.
Proof.
  destruct (lstrip_split s) as (l & El & Hl).
  destruct (rstrip_split (lstrip s)) as (r & Er & Hr).
  exists l, r. split; [|split; assumption].
  unfold strip. rewrite <- Er. exact El.
Qed.

Lemma strip_all_space (s : pystr) : all_space s = true -> strip s = [].
Proof.
  intros H. unfold strip. rewrite (lstrip_all_space _ H). reflexivity.
Qed.

Lemma strip_empty_all_space (s : pystr) :
  truthy (strip s) = false -> all_space s = true.
Proof.
  intros H. destruct (strip_split s) as (l & r & E & Hl & Hr).
  destruct (strip s); [|discriminate H].
  rewrite E, !all_space_app, Hl, Hr. reflexivity.
Qed.

Lemma lstrip_strip (s : pystr) : lstrip (strip s) = strip s.
Proof.
  unfold strip.
  destruct (rstrip_split (lstrip s)) as (w & E & _).
  destruct (rstrip (lstrip s)) as [|c t] eqn:R; [reflexivity|].
  apply lstrip_fixed. apply (@lstrip_head s c (t ++ w)).
  rewrite E at 1. reflexivity.
Qed.

Lemma strip_idempotent (s : pystr) : strip (strip s) = strip s.
Proof.
  unfold strip at 1. rewrite lstrip_strip.
  unfold strip. apply rstrip_idempotent.
Qed.

Lemma strip_length (s : pystr) : (List.length (strip s) <= List.length s)%nat.
Proof.
  destruct (strip_split s) as (l & r & E & _).
  rewrite E at 2. rewrite !length_app. lia.
Qed.

(** Stripping brings no surrogate into a text. *)
Lemma strip_keeps_unicode (s : pystr) :
  has_surrogate s = false -> has_surrogate (strip s) = false.
Proof.
  destruct (strip_split s) as (l & r & E & _).
  intros H. rewrite E in H. unfold has_surrogate in *.
  rewrite !existsb_app in H.
  apply orb_false_elim in H. destruct H as [_ H].
  apply orb_false_elim in H. destruct H as [H _]. exact H.
Qed.

Section ValidationProperties.

(** X7. The query of an accepted request is the given text without the
    whitespace around it: it lies in that text between two runs of
    whitespace, stripping it again changes nothing, and it has between 1
    and 1000 characters. *)
Theorem accepted_query_is_normalised v r :
  ChatRequest_parse v = inr r ->
  query r = strip v
  /\ 1 <= len (query r) <= 1000
  /\ strip (query r) = query r
  /\ exists before after,
       v = before ++ query r ++ after
       /\ all_space before = true /\ all_space after = true.
Proof.
  unfold ChatRequest_parse, validate_query.
  destruct (has_surrogate v); [discriminate|].
  destruct (len v <? 1) eqn:Hmin; [discriminate|].
  destruct (1000 <? len v) eqn:Hmax; [discriminate|].
  destruct (negb (truthy v) || negb (truthy (strip v))) eqn:Hblank;
    [discriminate|].
  intros E. inversion E; subst; clear E. cbn [query].
  apply orb_false_elim in Hblank. destruct Hblank as [_ Hs].
  apply negb_false_iff in Hs.
  apply Z.ltb_ge in Hmax.
  split; [reflexivity|]. split; [|split].
  - unfold len in *. pose proof (strip_length v).
    destruct (strip v); [discriminate Hs|]. cbn [List.length] in *. lia.
  - apply strip_idempotent.
  - apply strip_split.
Qed.

(** X8. Validation is idempotent: the query of an accepted request is
    itself accepted, and gives the same request. *)
Theorem accepted_query_is_accepted_again v r :
  ChatRequest_parse v = inr r ->
  ChatRequest_parse (query r) = inr r.
Proof.
  unfold ChatRequest_parse, validate_query.
  destruct (has_surrogate v) eqn:Hsur; [discriminate|].
  destruct (len v <? 1) eqn:Hmin; [discriminate|].
  destruct (1000 <? len v) eqn:Hmax; [discriminate|].
  destruct (negb (truthy v) || negb (truthy (strip v))) eqn:Hblank;
    [discriminate|].
  intros E. inversion E; subst; clear E. cbn [query].
  apply orb_false_elim in Hblank. destruct Hblank as [_ Hs].
  apply negb_false_iff in Hs.
  apply Z.ltb_ge in Hmax.
  rewrite (strip_keeps_unicode _ Hsur).
  rewrite strip_idempotent, Hs.
  assert (Hlen : 1 <= len (strip v) <= 1000).
  { unfold len in *. pose proof (strip_length v).
    destruct (strip v); [discriminate Hs|]. cbn [List.length] in *. lia. }
  replace (len (strip v) <? 1) with false by (symmetry; apply Z.ltb_ge; lia).
  replace (1000 <? len (strip v)) with false
    by (symmetry; apply Z.ltb_ge; lia).
  replace (truthy (strip v)) with true in *.
  reflexivity.
Qed.

(** X9. A text is refused exactly when it holds a surrogate code point,
    has more than 1000 characters, or consists of whitespace only (the
    empty text included). *)
Theorem refused_iff_too_long_or_blank v :
  (exists e, ChatRequest_parse v = inl e)
  <-> (has_surrogate v = true \/ 1000 < len v \/ all_space v = true).
Proof.
  unfold ChatRequest_parse, validate_query. split.
  - intros [e H].
    destruct (has_surrogate v) eqn:Hsur; [left; reflexivity|].
    right.
    destruct (len v <? 1) eqn:Hmin.
    { right. apply Z.ltb_lt in Hmin. unfold len in Hmin.
      destruct v; [reflexivity | cbn [List.length] in Hmin; lia]. }
    destruct (1000 <? len v) eqn:Hmax.
    { left. apply Z.ltb_lt. exact Hmax. }
    destruct (negb (truthy v) || negb (truthy (strip v))) eqn:Hblank;
      [|discriminate H].
    right. apply orb_true_iff in Hblank. destruct Hblank as [Hv | Hs].
    + destruct v; [reflexivity | discriminate Hv].
    + apply negb_true_iff in Hs. apply strip_empty_all_space. exact Hs.
  - intros [Hsur | [Hlong | Hblank]].
    + rewrite Hsur. eexists; reflexivity.
    + destruct (has_surrogate v); [eexists; reflexivity|].
      destruct (len v <? 1); [eexists; reflexivity|].
      apply Z.ltb_lt in Hlong. rewrite Hlong. eexists; reflexivity.
    + destruct (has_surrogate v); [eexists; reflexivity|].
      destruct (len v <? 1); [eexists; reflexivity|].
      destruct (1000 <? len v); [eexists; reflexivity|].
      rewrite (strip_all_space _ Hblank). cbn [truthy negb].
      rewrite orb_true_r. eexists; reflexivity.
Qed.

End ValidationProperties.

(* ------------------------------------------------------------------ *)
(** ** The effort of a generation call *)
(* ------------------------------------------------------------------ *)

Section ClientEffort.

Variable Time : Type.
Variable str_exc : Exn -> pystr.
Variable env : Env Time.
Variable self : InvestmentLLMClient.

Local Abbreviation generate := (generate_response str_exc env self).
Local Abbreviation attempt := (attempt_body str_exc env self).
Local Abbreviation posted h p s :=
  (count_post (log_event (EvPost (completions_url self) h p) s)).

(** Under the inner [try]: the post, and a sleep only on the way to the
    next iteration. *)
Lemma attempt_try_cases h p a s res s1 :
  attempt_try env self h p a s = (res, s1) ->
  s1 = posted h p s
  \/ (res = Return NextIteration
      /\ s1 = log_event (EvSleep (2 ^ a)) (posted h p s)).
Proof.
  unfold attempt_try, bind, post, lift, sleep, emit, ret, raise.
  destruct (http_post env (posts s)) as [e | r];
    [intros H; inversion H; auto|].
  destruct (status_code r =? 200).
  - destruct (json r) as [e | result]; [intros H; inversion H; auto|].
    destruct (first_choice_content result) as [e | answer];
      [intros H; inversion H; auto|].
    destruct (py_len answer) as [e | n]; [intros H; inversion H; auto|].
    destruct (py_strip answer) as [e | t]; intros H; inversion H; auto.
  - destruct (status_code r =? 429); intros H; inversion H; auto.
Qed.

(** One attempt: its post, and at most one sleep, of [2 ^ attempt]
    seconds or of one second. *)
Lemma attempt_body_cases h p a s res s' :
  attempt h p a s = (res, s') ->
  s' = posted h p s
  \/ s' = log_event (EvSleep (2 ^ a)) (posted h p s)
  \/ s' = log_event (EvSleep 1) (posted h p s).
Proof.
  unfold attempt_body, try_except. intros H.
  destruct (attempt_try env self h p a s) as [r1 s1] eqn:T.
  apply attempt_try_cases in T.
  destruct T as [-> | [-> ->]].
  - destruct r1 as [x | e]; [inversion H; auto|].
    destruct (attempt_except str_exc a e) as [k|] eqn:K;
      [|inversion H; auto].
    destruct (attempt_except_state _ _ _ _ K H) as [-> | ->]; auto.
  - inversion H; auto.
Qed.

(** Closes the goal of [generate_response_effort] for a final state
    that is written out. *)
Ltac effort_done :=
  eexists; split;
  [ unfold extends; cbn [trace log_event count_post];
    rewrite <- ?app_assoc; reflexivity
  | cbn [app count_posts filter is_post List.length total_sleep
         posts clock_reads log_event count_post];
    change (2 ^ 0) with 1; change (2 ^ 1) with 2; change (2 ^ 2) with 4;
    repeat split; lia ].

(** A generation call makes at most three posts and sleeps at most
    1 + 2 + 4 seconds, whatever the outside world does; it reads no
    clock. *)
Lemma generate_response_effort q ctx s res s' :
  generate q ctx s = (res, s') ->
  exists evs,
    extends s s' evs
    /\ posts s' = (posts s + count_posts evs)%nat
    /\ (count_posts evs <= 3)%nat
    /\ 0 <= total_sleep evs <= 7
    /\ clock_reads s' = clock_reads s.
Proof.
  unfold generate_response.
  destruct (negb (truthy q) || negb (truthy (strip q))).
  { intros H; inversion H; subst. exists [].
    split; [apply extends_refl | cbn; repeat split; lia]. }
  destruct (negb (truthy (api_token self))).
  { intros H; inversion H; subst. exists [].
    split; [apply extends_refl | cbn; repeat split; lia]. }
  unfold try_except. change (py_range 3) with [0; 1; 2].
  set (h := make_headers self).
  set (p := make_payload self (_build_messages q ctx)).
  destruct (for_each (attempt h p) [0; 1; 2]
              (raise (LLMAPIError msg_exhausted)) s) as [r0 s0] eqn:E.
  intros H.
  assert (s' = s0) as ->.
  { destruct r0 as [t | e]; [inversion H; reflexivity|].
    destruct e; inversion H; reflexivity. }
  clear H. revert E. cbn [for_each]. unfold bind, ret, raise.
  destruct (attempt h p 0 s) as [st0 s1] eqn:E0.
  apply attempt_body_cases in E0.
  destruct st0 as [[a0 | ] | e0];
    [ intros E; inversion E; subst;
      destruct E0 as [-> | [-> | ->]]; effort_done
    | | intros E; inversion E; subst;
      destruct E0 as [-> | [-> | ->]]; effort_done ].
  destruct (attempt h p 1 s1) as [st1 s2] eqn:E1.
  apply attempt_body_cases in E1.
  destruct st1 as [[a1 | ] | e1];
    [ intros E; inversion E; subst;
      destruct E0 as [-> | [-> | ->]], E1 as [-> | [-> | ->]]; effort_done
    | | intros E; inversion E; subst;
      destruct E0 as [-> | [-> | ->]], E1 as [-> | [-> | ->]]; effort_done ].
  destruct (attempt h p 2 s2) as [st2 s3] eqn:E2.
  apply attempt_body_cases in E2.
  destruct st2 as [[a2 | ] | e2];
    intros E; inversion E; subst;
    destruct E0 as [-> | [-> | ->]], E1 as [-> | [-> | ->]],
             E2 as [-> | [-> | ->]]; effort_done.
Qed.

(** X2. Whatever the outside world does, a generation call makes at most
    three posts, sleeps at most 1 + 2 + 4 = 7 seconds in all, and ends
    either with a text or with [LLMAPIError], never with another
    exception. *)
Theorem generation_is_bounded q ctx s :
  exists evs,
    extends s (snd (generate q ctx s)) evs
    /\ (count_posts evs <= 3)%nat
    /\ 0 <= total_sleep evs <= 7
    /\ match fst (generate q ctx s) with
       | Return _ => True
       | Raise e => exists msg, e = LLMAPIError msg
       end.
Proof.
  destruct (generate q ctx s) as [res s'] eqn:E.
  destruct (generate_response_effort _ _ _ E) as (evs & X & _ & P & T & _).
  exists evs. cbn [fst snd]. repeat split; try assumption; try lia.
  destruct res as [t | e]; [exact I|].
  exact (generate_raises_only_LLMAPIError _ _ _ _ _ _ E).
Qed.

(** X3. All the posts of one generation call are the same request: to
    [base_url/chat/completions], with the JSON content type, the bearer
    token and the user agent of the bot, and a body made of the model of
    the client, the messages built from the query and the context,
    temperature 0.3, 800 tokens at most and top-p 0.9. *)
Theorem every_post_is_the_same_request q ctx s :
  exists evs,
    extends s (snd (generate q ctx s)) evs
    /\ Forall
         (fun ev =>
            is_post ev = true ->
            ev = EvPost (base_url self ++ u8 "/chat/completions")
                   (expected_headers self)
                   (expected_payload self (_build_messages q ctx)))
         evs.
Proof.
  destruct (generate q ctx s) as [res s'] eqn:E.
  destruct (generate_response_events _ _ _ _ _ _ E) as (evs & X & F).
  exists evs. split; [exact X|].
  eapply Forall_impl; [|exact F].
  intros ev [-> | Hsleep] Hpost.
  - reflexivity.
  - destruct ev; cbn in Hsleep, Hpost; congruence.
Qed.

(** X4. A question made of whitespace only is answered on the spot with
    the request to ask a question: nothing is posted, with or without a
    token. *)
Theorem blank_query_is_answered_locally q ctx s :
  all_space q = true ->
  generate q ctx s = (Return msg_ask_question, s).
Proof.
  intros H. unfold generate_response.
  rewrite (strip_all_space _ H). cbn [truthy negb].
  rewrite orb_true_r. reflexivity.
Qed.

(** The last attempt, ended by a timeout or a transport error: the error
    of that kind is raised, without a sleep. *)
Lemma attempt_last_transient h p s e :
  http_post env (posts s) = inl e ->
  transient e ->
  attempt h p 2 s =
    (Raise (LLMAPIError
              match e with
              | TimeoutException _ => msg_timeout
              | _ => msg_network (str_exc e)
              end),
     posted h p s).
Proof.
  intros Hpost He.
  unfold attempt_body, attempt_try, attempt_except, try_except, bind, post.
  rewrite Hpost. destruct e; cbn in He; try contradiction; reflexivity.
Qed.

(** X1. When the first two attempts are retried and the third ends in a
    timeout or a transport error, the call fails with the error of the
    third attempt: the timeout message after a timeout, the network
    message with the text of the error otherwise. Three posts were made
    and nothing follows the third. *)
Theorem last_attempt_decides_the_failure q ctx s e :
  truthy (strip q) = true ->
  truthy (api_token self) = true ->
  retried (http_post env (posts s)) ->
  retried (http_post env (posts s + 1)) ->
  http_post env (posts s + 2) = inl e ->
  transient e ->
  exists s' n0 n1,
    generate q ctx s =
      (Raise (LLMAPIError
                match e with
                | TimeoutException _ => msg_timeout
                | _ => msg_network (str_exc e)
                end), s')
    /\ extends s s' [ completion_call self q ctx; EvSleep n0;
                      completion_call self q ctx; EvSleep n1;
                      completion_call self q ctx ]
    /\ posts s' = (posts s + 3)%nat.
Proof.
  intros Hq Htok H0 H1 H2 He.
  rewrite (generate_response_active str_exc env self q ctx Hq Htok).
  unfold try_except. change (py_range 3) with [0; 1; 2].
  set (h := make_headers self).
  set (p := make_payload self (_build_messages q ctx)).
  destruct (@attempt_retried _ str_exc env self h p 0 s H0) as [n0 E0];
    [lia|].
  erewrite for_each_next by exact E0.
  replace (posts s + 1)%nat with (S (posts s)) in H1 by lia.
  match goal with
  | |- context [for_each _ _ _ ?s1] =>
      destruct (@attempt_retried _ str_exc env self h p 1 s1 H1) as [n1 E1];
        [lia|]
  end.
  erewrite for_each_next by exact E1.
  replace (posts s + 2)%nat with (S (S (posts s))) in H2 by lia.
  erewrite for_each_raised
    by (eapply attempt_last_transient; [exact H2 | exact He]).
  eexists; exists n0, n1. split; [reflexivity|]. split.
  - unfold extends. cbn [trace log_event count_post].
    rewrite <- !app_assoc. reflexivity.
  - cbn [posts log_event count_post]. lia.
Qed.

End ClientEffort.

(* ------------------------------------------------------------------ *)
(** ** Answers that end a generation call *)
(* ------------------------------------------------------------------ *)

Lemma getitem_key_error v k e :
  getitem_key v k = inl e -> (exists k', e = KeyError k') \/ e = TypeError.
Proof.
  unfold getitem_key. destruct v; try (intros H; inversion H; auto).
  revert H. destruct (dict_get items k); intros H; inversion H; eauto.
Qed.

Lemma getitem_0_error v e :
  getitem_0 v = inl e ->
  (exists k', e = KeyError k') \/ e = IndexError \/ e = TypeError.
Proof.
  unfold getitem_0.
  destruct v as [ | | | | [|c t] | [|x l] | ];
    intros H; inversion H; eauto.
Qed.

(** Subscripting a body fails with [KeyError], [IndexError] or
    [TypeError] only. *)
Lemma first_choice_content_error body e :
  first_choice_content body = inl e ->
  (exists k', e = KeyError k') \/ e = IndexError \/ e = TypeError.
Proof.
  unfold first_choice_content.
  destruct (getitem_key body (u8 "choices")) as [e0 | choices] eqn:E0.
  { intros H; inversion H; subst.
    destruct (getitem_key_error _ _ E0); auto. }
  destruct (getitem_0 choices) as [e1 | choice] eqn:E1.
  { intros H; inversion H; subst. exact (getitem_0_error _ E1). }
  destruct (getitem_key choice (u8 "message")) as [e2 | message] eqn:E2.
  { intros H; inversion H; subst.
    destruct (getitem_key_error _ _ E2); auto. }
  intros H. destruct (getitem_key_error _ _ H); auto.
Qed.

Section ClientOutcomes.

Variable Time : Type.
Variable str_exc : Exn -> pystr.
Variable env : Env Time.
Variable self : InvestmentLLMClient.

Local Abbreviation generate := (generate_response str_exc env self).
Local Abbreviation attempt := (attempt_body str_exc env self).
Local Abbreviation posted h p s :=
  (count_post (log_event (EvPost (completions_url self) h p) s)).

(** When the attempts before the [k]-th are retried, the loop arrives at
    attempt [k] having made [k] posts. *)
Lemma loop_reaches_attempt h p s k :
  (k < 3)%nat ->
  (forall j, (j < k)%nat -> retried (http_post env (posts s + j))) ->
  exists sk rest,
    posts sk = (posts s + k)%nat
    /\ clock_reads sk = clock_reads s
    /\ forall after,
         for_each (attempt h p) [0; 1; 2] after s
         = for_each (attempt h p) (Z.of_nat k :: rest) after sk.
Proof.
  intros Hk Hprev.
  destruct k as [|[|[|k]]]; try lia.
  - exists s, [1; 2].
    split; [lia | split; [reflexivity | intros after; reflexivity]].
  - destruct (@attempt_retried _ str_exc env self h p 0 s) as [n0 E0].
    { specialize (Hprev 0%nat). rewrite Nat.add_0_r in Hprev.
      apply Hprev. lia. }
    { lia. }
    eexists; exists [2]. split; [|split].
    3: { intros after. erewrite for_each_next by exact E0. reflexivity. }
    + cbn [posts log_event count_post]. lia.
    + reflexivity.
  - destruct (@attempt_retried _ str_exc env self h p 0 s) as [n0 E0].
    { specialize (Hprev 0%nat). rewrite Nat.add_0_r in Hprev.
      apply Hprev. lia. }
    { lia. }
    match type of E0 with
    | _ = (_, ?s1) =>
        destruct (@attempt_retried _ str_exc env self h p 1 s1) as [n1 E1]
    end.
    { specialize (Hprev 1%nat).
      replace (posts s + 1)%nat with (S (posts s)) in Hprev by lia.
      apply Hprev. lia. }
    { lia. }
    eexists; exists []. split; [|split].
    3: { intros after. erewrite for_each_next by exact E0.
         erewrite for_each_next by exact E1. reflexivity. }
    + cbn [posts log_event count_post]. lia.
    + reflexivity.
Qed.

(** X6. A status other than 200 and 429, at any attempt that is reached,
    ends the call at once with the API error; no further post is made.
    The message carries the status and at most the first 200 characters
    of the body: the whole body when it is that short. *)
Theorem api_error_ends_the_call q ctx s k r :
  truthy (strip q) = true ->
  truthy (api_token self) = true ->
  (k < 3)%nat ->
  (forall j, (j < k)%nat -> retried (http_post env (posts s + j))) ->
  http_post env (posts s + k) = inr r ->
  status_code r <> 200 ->
  status_code r <> 429 ->
  exists s' detail,
    generate q ctx s =
      (Raise (LLMAPIError
                (u8 "API error " ++ str_of_int (status_code r)
                 ++ u8 ": " ++ detail)), s')
    /\ posts s' = (posts s + k + 1)%nat
    /\ len detail <= 200
    /\ (exists rest, text r = detail ++ rest)
    /\ (len (text r) <= 200 -> detail = text r).
Proof.
  intros Hq Htok Hk Hprev Hpost H200 H429.
  rewrite (generate_response_active str_exc env self q ctx Hq Htok).
  unfold try_except. change (py_range 3) with [0; 1; 2].
  set (h := make_headers self).
  set (p := make_payload self (_build_messages q ctx)).
  destruct (loop_reaches_attempt h p s Hk Hprev)
    as (sk & rest & Hposts & _ & Hloop).
  rewrite Hloop. rewrite <- Hposts in Hpost.
  erewrite for_each_raised
    by (eapply attempt_api_error; [exact Hpost | exact H200 | exact H429]).
  eexists; exists (slice_to 200 (text r)). split; [reflexivity|].
  unfold slice_to, len. split; [|split; [|split]].
  - cbn [posts log_event count_post]. lia.
  - pose proof (firstn_le_length 200 (text r)).
    pose proof (length_firstn 200 (text r)). lia.
  - exists (skipn 200 (text r)). symmetry. apply firstn_skipn.
  - intros Hshort. apply firstn_all2. lia.
Qed.

(** A 200 answer whose body has no string at
    [choices[0].message.content]: one post, then an exception of the
    subscripting, of [len] or of [strip]. *)
Lemma attempt_unusable_body h p a s r body :
  http_post env (posts s) = inr r ->
  status_code r = 200 ->
  json r = inr body ->
  match first_choice_content body with
  | inr v => is_string v = false
  | inl _ => True
  end ->
  exists e,
    attempt h p a s = (Raise e, posted h p s)
    /\ ((exists k', e = KeyError k') \/ e = IndexError \/ e = TypeError
        \/ e = AttributeError).
Proof.
  intros Hpost Hst Hjson Hbody.
  unfold attempt_body, attempt_try, attempt_except, try_except, bind, post,
    lift, ret, raise.
  rewrite Hpost, Hst. cbn [Z.eqb Pos.eqb]. rewrite Hjson.
  destruct (first_choice_content body) as [e | v] eqn:Hc.
  - exists e. destruct (first_choice_content_error _ Hc)
      as [[k' ->] | [-> | ->]]; (split; [reflexivity | eauto 6]).
  - destruct v; try discriminate Hbody; cbn [py_len py_strip];
      (eexists; split; [reflexivity | auto]).
Qed.

(** X5. A 200 answer that cannot be used, because a key or the first
    choice is missing or the content is not a string, ends the call with
    [LLMAPIError] made of the internal-error prefix and the text of the
    exception; the answer is not retried. *)
Theorem unusable_success_body_is_internal_error q ctx s k r body :
  truthy (strip q) = true ->
  truthy (api_token self) = true ->
  (k < 3)%nat ->
  (forall j, (j < k)%nat -> retried (http_post env (posts s + j))) ->
  http_post env (posts s + k) = inr r ->
  status_code r = 200 ->
  json r = inr body ->
  match first_choice_content body with
  | inr v => is_string v = false
  | inl _ => True
  end ->
  exists s' e,
    generate q ctx s = (Raise (LLMAPIError (msg_internal (str_exc e))), s')
    /\ ((exists k', e = KeyError k') \/ e = IndexError \/ e = TypeError
        \/ e = AttributeError)
    /\ posts s' = (posts s + k + 1)%nat.
Proof.
  intros Hq Htok Hk Hprev Hpost Hst Hjson Hbody.
  rewrite (generate_response_active str_exc env self q ctx Hq Htok).
  unfold try_except. change (py_range 3) with [0; 1; 2].
  set (h := make_headers self).
  set (p := make_payload self (_build_messages q ctx)).
  destruct (loop_reaches_attempt h p s Hk Hprev)
    as (sk & rest & Hposts & _ & Hloop).
  rewrite Hloop. rewrite <- Hposts in Hpost.
  destruct (attempt_unusable_body h p (Z.of_nat k) sk Hpost Hst Hjson Hbody)
    as (e & Ea & He).
  erewrite for_each_raised by exact Ea.
  exists (posted h p sk), e.
  split; [|split; [exact He | cbn [posts log_event count_post]; lia]].
  destruct He as [[k' ->] | [-> | [-> | ->]]]; reflexivity.
Qed.

End ClientOutcomes.

(* ------------------------------------------------------------------ *)
(** ** The route, from the request to the answer *)
(* ------------------------------------------------------------------ *)

Lemma extends_unique s s' e1 e2 :
  extends s s' e1 -> extends s s' e2 -> e1 = e2.
Proof.
  unfold extends. intros H1 H2. rewrite H1 in H2.
  exact (app_inv_head _ _ _ H2).
Qed.


(** What makes a text accepted. *)
Lemma parse_accepts v r :
  ChatRequest_parse v = inr r ->
  query r = strip v /\ truthy (strip v) = true.
Proof.
  unfold ChatRequest_parse, validate_query.
  destruct (has_surrogate v); [discriminate|].
  destruct (len v <? 1); [discriminate|].
  destruct (1000 <? len v); [discriminate|].
  destruct (negb (truthy v) || negb (truthy (strip v))) eqn:Hblank;
    [discriminate|].
  intros E. inversion E; subst; clear E.
  apply orb_false_elim in Hblank. destruct Hblank as [_ Hs].
  apply negb_false_iff in Hs. auto.
Qed.

Section RouteProperties.

Variable Time : Type.
Variable elapsed_rounded : Time -> Time -> Time.
Variable str_exc : Exn -> pystr.
Variable env : Env Time.
Variable llm_client : InvestmentLLMClient.

Local Abbreviation generate := (generate_response str_exc env llm_client).
Local Abbreviation handle :=
  (process_chat_request elapsed_rounded str_exc env llm_client).

(** The events of a generation call, with their kind and their number. *)
Lemma generate_response_trace q ctx s res s' :
  generate q ctx s = (res, s') ->
  exists evs,
    extends s s' evs
    /\ Forall (generation_event llm_client q ctx) evs
    /\ (count_posts evs <= 3)%nat
    /\ 0 <= total_sleep evs <= 7
    /\ posts s' = (posts s + count_posts evs)%nat
    /\ clock_reads s' = clock_reads s.
Proof.
  intros E.
  destruct (generate_response_events _ _ _ _ _ _ E) as (e1 & X1 & F).
  destruct (generate_response_effort _ _ _ _ _ _ E)
    as (e2 & X2 & P & B & T & C).
  rewrite (extends_unique X2 X1) in *.
  exists e1. repeat split; try assumption; lia.
Qed.


(** X10. An accepted request with a token at hand does reach the
    endpoint: the first thing a generation call does for its query is to
    post the completion request built from the stripped text. *)
Theorem accepted_query_is_posted v r ctx s :
  ChatRequest_parse v = inr r ->
  truthy (api_token llm_client) = true ->
  exists evs,
    extends s (snd (generate (query r) ctx s))
      (completion_call llm_client (strip v) ctx :: evs).
Proof.
  intros Hparse Htok.
  destruct (parse_accepts _ Hparse) as [-> Hs].
  assert (Hq : truthy (strip (strip v)) = true)
    by (rewrite strip_idempotent; exact Hs).
  rewrite (generate_response_active str_exc env llm_client (strip v) ctx
             Hq Htok).
  unfold try_except. change (py_range 3) with [0; 1; 2].
  set (h := make_headers llm_client).
  set (p := make_payload llm_client (_build_messages (strip v) ctx)).
  destruct (for_each (attempt_body str_exc env llm_client h p) [0; 1; 2]
              (raise (LLMAPIError msg_exhausted)) s) as [r0 s0] eqn:E.
  assert (Hs0 : snd (match r0 with
                     | Return a => (Return a, s0)
                     | Raise e =>
                         match
                           match e with
                           | LLMAPIError _ => None
                           | _ => Some (raise (LLMAPIError
                                                 (msg_internal (str_exc e))))
                           end
                         with
                         | Some k => k s0
                         | None => (Raise e, s0)
                         end
                     end) = s0).
  { destruct r0 as [t | e]; [reflexivity|]. destruct e; reflexivity. }
  rewrite Hs0. clear Hs0.
  change (for_each (attempt_body str_exc env llm_client h p) [0; 1; 2]
            (raise (LLMAPIError msg_exhausted)) s)
    with (bind (attempt_body str_exc env llm_client h p 0)
            (fun step =>
               match step with
               | Returned a => ret a
               | NextIteration =>
                   for_each (attempt_body str_exc env llm_client h p) [1; 2]
                     (raise (LLMAPIError msg_exhausted))
               end) s) in E.
  unfold bind in E.
  destruct (attempt_body str_exc env llm_client h p 0 s) as [st0 s1] eqn:E0.
  destruct (attempt_body_events _ _ _ _ _ _ _ E0) as (e1 & X1 & _).
  assert (Hfirst : exists more, e1 = EvPost (completions_url llm_client) h p
                                       :: more).
  { apply attempt_body_cases in E0. unfold extends in X1.
    destruct E0 as [-> | [-> | ->]];
      cbn [trace log_event count_post] in X1;
      rewrite <- ?app_assoc in X1; apply app_inv_head in X1;
      subst e1; eexists; reflexivity. }
  destruct Hfirst as [more ->].
  assert (Hrest : exists e2, extends s1 s0 e2).
  { destruct st0 as [[a | ] | e].
    - inversion E; subst. exists []. apply extends_refl.
    - assert (exists evs, extends s1 s0 evs /\ Forall (fun _ => True) evs)
        as (e2 & X2 & _).
      { eapply for_each_events; [ | | exact E].
        + intros i t res t' Hi.
          destruct (attempt_body_events _ _ _ _ _ _ _ Hi) as (e3 & X3 & _).
          exists e3. split; [exact X3|]. apply Forall_forall. auto.
        + intros t res t' Hi. inversion Hi; subst.
          exists []. split; [apply extends_refl | constructor]. }
      exists e2. exact X2.
    - inversion E; subst. exists []. apply extends_refl. }
  destruct Hrest as [e2 X2].
  exists (more ++ e2).
  exact (extends_trans X1 X2).
Qed.


(** What the handler does when retrieval raises. *)
Lemma retrieval_failure_is_internal_error_aux request s e :
  kb_search env (query request) 3 = inl e ->
  exists s',
    handle request s
      = (Raise (HTTPException 500 internal_error_detail), s')
    /\ extends s s' [EvSearch (query request) 3].
Proof.
  intros Hkb.
  unfold process_chat_request, try_except, bind, time_time, search, emit,
    lift.
  rewrite Hkb.
  eexists; split; reflexivity.
Qed.

(** X12. When retrieval raises, the handler raises the 500 error with its
    fixed text; the search is all that was done: generation is not
    called, nothing is posted. *)
Theorem retrieval_failure_is_internal_error request s e :
  kb_search env (query request) 3 = inl e ->
  exists s',
    handle request s
      = (Raise (HTTPException 500 internal_error_detail), s')
    /\ extends s s' [EvSearch (query request) 3]
    /\ posts s' = posts s.
Proof.
  intros Hkb.
  unfold process_chat_request, try_except, bind, time_time, search, emit,
    lift.
  cbn [fst snd]. rewrite Hkb.
  eexists; split; [reflexivity|]. split; reflexivity.
Qed.

(** X13. Every run of the handler makes exactly one search, for the query
    of the request with [top_k = 3], before anything else; what follows
    is at most three completion calls for that query and the retrieved
    context, and at most 7 seconds of sleep. *)
Theorem handler_trace_shape request s :
  exists evs,
    extends s (snd (handle request s)) (EvSearch (query request) 3 :: evs)
    /\ Forall (fun ev => is_post ev = true \/ is_sleep ev = true) evs
    /\ (forall ctx, kb_search env (query request) 3 = inr ctx ->
          Forall (generation_event llm_client (query request) ctx) evs)
    /\ (count_posts evs <= 3)%nat
    /\ 0 <= total_sleep evs <= 7.
Proof.
  destruct (kb_search env (query request) 3) as [e | ctx] eqn:Hkb.
  - destruct (retrieval_failure_is_internal_error_aux request s Hkb)
      as (s' & E & X).
    rewrite E. exists []. cbn [snd]. split; [exact X|].
    split; [constructor|]. split; [intros ctx H; discriminate H|].
    cbn. lia.
  - rewrite (process_chat_request_run _ _ _ _ _ _ Hkb).
    destruct (generate (query request) ctx
                (state_at_generation (query request) s)) as [res s2] eqn:G.
    destruct (generate_response_trace _ _ _ G)
      as (evs & X & F & P & T & _ & _).
    exists evs.
    assert (Htrace : extends s (count_clock_read s2)
                       (EvSearch (query request) 3 :: evs)).
    { unfold extends in *. cbn [trace count_clock_read]. rewrite X.
      unfold state_at_generation.
      cbn [trace log_event count_clock_read].
      rewrite <- app_assoc. reflexivity. }
    split.
    { destruct res as [t | e0]; [exact Htrace|].
      destruct (generate_raises_only_LLMAPIError _ _ _ _ _ _ G) as [msg ->].
      exact Htrace. }
    split.
    { eapply Forall_impl; [|exact F].
      intros ev [-> | Hsl]; [left; reflexivity | right; exact Hsl]. }
    split.
    { intros ctx' H. inversion H; subst. exact F. }
    split; assumption.
Qed.


End RouteProperties.

(* ------------------------------------------------------------------ *)
(** ** The probe and the monitoring routes *)
(* ------------------------------------------------------------------ *)

Section MonitoringProperties.

Variable Time : Type.
Variable str_exc : Exn -> pystr.
Variable env : Env Time.
Variable llm_client : InvestmentLLMClient.

Local Abbreviation probe := (health_check str_exc env llm_client).

(** The probe always returns. *)
Lemma health_check_returns s :
  exists b s', probe s = (Return b, s').
Proof.
  unfold health_check, try_except, bind, ret.
  destruct (generate_response _ _ _ _ _ s) as [[t | e] s1]; eauto.
Qed.

(** X15. The probe never raises and makes at most three posts. It says
    [True] exactly when its generation call, for the fixed test question
    and test context, returns a non-empty text. *)
Theorem health_check_is_total s :
  exists b,
    fst (probe s) = Return b
    /\ (b = true <->
        exists t,
          fst (generate_response str_exc env llm_client (u8 "Тест")
                 (Some (u8 "Тестовая информация")) s) = Return t
          /\ t <> [])
    /\ (posts (snd (probe s)) <= posts s + 3)%nat.
Proof.
  destruct (health_check_returns s) as (b & s' & E).
  exists b. split; [rewrite E; reflexivity|]. split.
  - rewrite <- (health_check_true_iff str_exc env llm_client s).
    rewrite E. cbn [fst]. split; [intros ->; reflexivity|].
    intros H. inversion H. reflexivity.
  - revert E. unfold health_check, try_except, bind, ret.
    destruct (generate_response str_exc env llm_client (u8 "Тест")
                (Some (u8 "Тестовая информация")) s) as [res s1] eqn:G.
    destruct (generate_response_effort _ _ _ _ _ _ G)
      as (evs & _ & P & B & _).
    destruct res as [t | e]; intros E; inversion E; subst;
      cbn [snd]; lia.
Qed.

(** X16. An answer of the model made of whitespace only counts as a
    failed probe: the stripped text is empty. *)
Theorem health_check_rejects_blank_answer s r body c :
  truthy (api_token llm_client) = true ->
  http_post env (posts s) = inr r ->
  status_code r = 200 ->
  json r = inr body ->
  first_choice_content body = inr (JStr c) ->
  all_space c = true ->
  fst (probe s) = Return false.
Proof.
  intros Htok Hpost Hst Hjson Hc Hblank.
  unfold health_check, try_except, bind, ret.
  assert (Hq : truthy (strip (u8 "Тест")) = true) by (vm_compute; reflexivity).
  rewrite <- (Nat.add_0_r (posts s)) in Hpost.
  destruct (generate_success_at_attempt str_exc env llm_client (u8 "Тест")
              (Some (u8 "Тестовая информация")) s (k := 0) Hq Htok
              ltac:(lia) ltac:(intros j Hj; lia) Hpost Hst Hjson Hc)
    as (s' & E & _).
  rewrite E. rewrite (strip_all_space _ Hblank). reflexivity.
Qed.

Variable kb_get_stats : Exn + JSON.
Variable config : Config.

Local Abbreviation health_route :=
  (app_health_check str_exc env kb_get_stats config llm_client).

(** X17. When the statistics cannot be fetched, [GET /health] answers
    with status "error" and the text of the exception, and the client is
    not probed: the state is untouched. *)
Theorem health_route_without_statistics s e :
  kb_get_stats = inl e ->
  health_route s
    = (Return (JDict [ (u8 "status", JStr (u8 "error"));
                       (u8 "error", JStr (str_exc e)) ]), s).
Proof.
  intros H. unfold app_health_check, try_except, bind, get_stats, lift.
  rewrite H. reflexivity.
Qed.

(** X18. When the statistics hold both counts, [GET /health] answers
    after one probe: the overall status is "healthy" when the probe says
    [True] and "degraded" otherwise, the status of the client is
    "healthy" or "error" accordingly, and the counts are passed on. *)
Theorem health_route_reports_the_probe s stats documents dimension :
  kb_get_stats = inr stats ->
  getitem_key stats (u8 "total_documents") = inr documents ->
  getitem_key stats (u8 "embedding_dimension") = inr dimension ->
  exists b s' answer components kb llm,
    probe s = (Return b, s')
    /\ health_route s = (Return answer, s')
    /\ getitem_key answer (u8 "status")
       = inr (JStr (if b then u8 "healthy" else u8 "degraded"))
    /\ getitem_key answer (u8 "components") = inr components
    /\ getitem_key components (u8 "llm_client") = inr llm
    /\ getitem_key llm (u8 "status")
       = inr (JStr (if b then u8 "healthy" else u8 "error"))
    /\ getitem_key llm (u8 "model") = inr (JStr (model_name config))
    /\ getitem_key components (u8 "knowledge_base") = inr kb
    /\ getitem_key kb (u8 "documents") = inr documents
    /\ getitem_key kb (u8 "embedding_dimension") = inr dimension.
Proof.
  intros Hstats Hdoc Hdim.
  destruct (health_check_returns s) as (b & s' & E).
  exists b, s'.
  unfold app_health_check, try_except, bind, get_stats, lift.
  rewrite Hstats. unfold ret at 1. rewrite E, Hdoc. unfold ret at 1.
  rewrite Hdim. unfold ret.
  do 4 eexists. split; [reflexivity|]. split; [reflexivity|].
  repeat split; vm_compute; reflexivity.
Qed.

(** X19. [GET /health] answers in every case: with a status that is
    "healthy", "degraded" or "error", never with an exception. *)
Theorem health_route_always_answers s :
  exists answer status,
    fst (health_route s) = Return answer
    /\ getitem_key answer (u8 "status") = inr (JStr status)
    /\ (status = u8 "healthy" \/ status = u8 "degraded"
        \/ status = u8 "error").
Proof.
  unfold app_health_check, try_except.
  match goal with
  | |- context [let (_, _) := ?m s in _] => destruct (m s) as [[j | e] s1] eqn:E
  end.
  - revert E. unfold bind, get_stats, lift.
    destruct kb_get_stats as [e | stats]; [discriminate|]. unfold ret at 1.
    destruct (health_check_returns s) as (b & s' & Hb). rewrite Hb.
    destruct (getitem_key stats (u8 "total_documents")) as [e | d1];
      [discriminate|]. unfold ret at 1.
    destruct (getitem_key stats (u8 "embedding_dimension")) as [e | d2];
      [discriminate|]. unfold ret.
    intros E. inversion E; subst. eexists; eexists.
    split; [reflexivity|]. split; [vm_compute; reflexivity|].
    destruct b; auto.
  - eexists; eexists. split; [reflexivity|].
    split; [vm_compute; reflexivity | auto].
Qed.

(** [GET /stats] passes the statistics on, beside the model and the
    provider of the configuration; when the statistics cannot be fetched
    it raises the 500 error with its own fixed text. *)
Theorem stats_route_outcome s :
  get_system_stats kb_get_stats config s =
    match kb_get_stats with
    | inr stats =>
        (Return (JDict
                   [ (u8 "knowledge_base", stats);
                     (u8 "config",
                      JDict [ (u8 "model", JStr (model_name config));
                              (u8 "provider", JStr (llm_provider config)) ])
                   ]), s)
    | inl _ =>
        (Raise (HTTPException 500 (u8 "Ошибка получения статистики")), s)
    end.
Proof.
  unfold get_system_stats, try_except, bind, get_stats, lift.
  destruct kb_get_stats; reflexivity.
Qed.

End MonitoringProperties.

(* ------------------------------------------------------------------ *)
(** ** The text of a successful answer *)
(* ------------------------------------------------------------------ *)

Lemma pystr_eqb_refl (a : pystr) : PyStr.eqb a a = true.
Proof.
  induction a as [|x a IH]; [reflexivity|].
  cbn [PyStr.eqb]. unfold pychar_eqb. rewrite N.eqb_refl. exact IH.
Qed.

Lemma pystr_eqb_eq (a b : pystr) : PyStr.eqb a b = true -> a = b.
Proof.
  revert b. induction a as [|x a IH]; intros [|y b] H;
    try reflexivity; try discriminate H.
  cbn [PyStr.eqb] in H. apply andb_prop in H. destruct H as [Hxy Hab].
  apply N.eqb_eq in Hxy. subst y. rewrite (IH _ Hab). reflexivity.
Qed.

Lemma dict_maps_here k v after : dict_maps ((k, v) :: after) k v.
Proof. exists [], after. split; [reflexivity | constructor]. Qed.

Lemma dict_maps_later k' v' items k v :
  k' <> k -> dict_maps items k v -> dict_maps ((k', v') :: items) k v.
Proof.
  intros Hk (before & after & -> & Hbefore).
  exists ((k', v') :: before), after. split; [reflexivity|].
  constructor; [exact Hk | exact Hbefore].
Qed.

(** Lookup finds what the dict maps the key to. *)
Lemma dict_get_maps items k v :
  dict_maps items k v -> dict_get items k = Some v.
Proof.
  intros (before & after & -> & Hbefore).
  induction before as [|[k' v'] before IH].
  - cbn [app dict_get]. rewrite pystr_eqb_refl. reflexivity.
  - inversion Hbefore as [|item rest Hk Hrest]; subst.
    cbn [app dict_get]. cbn [fst] in Hk.
    destruct (PyStr.eqb k' k) eqn:E.
    + apply pystr_eqb_eq in E. contradiction.
    + exact (IH Hrest).
Qed.

(** The subscripts of [generate_response] reach the content of the first
    choice. *)
Lemma first_choice_says_content body c :
  first_choice_says body c -> first_choice_content body = inr (JStr c).
Proof.
  intros (items & choice & others & message & -> & H1 & H2 & H3).
  unfold first_choice_content, getitem_key.
  rewrite (dict_get_maps H1). cbn [getitem_0].
  rewrite (dict_get_maps H2). rewrite (dict_get_maps H3). reflexivity.
Qed.

(** What stripping gives is the text without the whitespace around it. *)
Lemma strip_trimmed_from (c : pystr) : trimmed_from c (strip c).
Proof.
  split; [apply strip_split|]. split.
  - pose proof (lstrip_strip c) as H.
    destruct (strip c) as [|first rest]; [exact I|].
    exact (lstrip_head _ H).
  - unfold strip, rstrip. rewrite rev_involutive.
    destruct (lstrip (rev (lstrip c))) as [|last rest] eqn:E; [exact I|].
    exact (lstrip_head _ E).
Qed.

(** The test finds every occurrence. *)
Lemma starts_with_app (p rest : pystr) : starts_with p (p ++ rest) = true.
Proof.
  induction p as [|x p IH]; [reflexivity|].
  cbn [app starts_with]. unfold pychar_eqb. rewrite N.eqb_refl. exact IH.
Qed.

Lemma contains_containsb (needle hay : pystr) :
  contains needle hay -> containsb needle hay = true.
Proof.
  intros (pre & post & ->).
  induction pre as [|x pre IH].
  - cbn [app]. destruct (needle ++ post) eqn:E;
      cbn [containsb]; rewrite <- E, starts_with_app; reflexivity.
  - cbn [app containsb]. rewrite IH. apply orb_true_r.
Qed.

Section SuccessfulAnswer.

Variable Time : Type.
Variable elapsed_rounded : Time -> Time -> Time.
Variable str_exc : Exn -> pystr.
Variable env : Env Time.
Variable llm_client : InvestmentLLMClient.

(** C6. A 200 answer at an attempt that is reached, whose body holds the
    string [c] as the content of the message of its first choice:
    [generate_response] returns [c] without the whitespace around it,
    whatever the other choices hold; and when retrieval gave a non-empty
    context the handler's answer has [context_found] set and that trimmed
    text, not the context, as its text. *)
Theorem success_returns_trimmed_first_choice q ctx s k r body c :
  truthy (strip q) = true ->
  truthy (api_token llm_client) = true ->
  (k < 3)%nat ->
  (forall j, (j < k)%nat -> retried (http_post env (posts s + j))) ->
  http_post env (posts s + k) = inr r ->
  status_code r = 200 ->
  json r = inr body ->
  first_choice_says body c ->
  exists t,
    trimmed_from c t
    /\ fst (generate_response str_exc env llm_client q ctx s) = Return t
    /\ (forall found, kb_search env q 3 = inr found ->
          truthy_opt found = true ->
          exists rsp s',
            process_chat_request elapsed_rounded str_exc env llm_client
              {| query := q |} s = (Return rsp, s')
            /\ context_found rsp = true
            /\ response rsp = t).
Proof.
  intros Hq Htok Hk Hprev Hpost Hst Hjson Hbody.
  pose proof (first_choice_says_content Hbody) as Hc.
  exists (strip c). split; [apply strip_trimmed_from|]. split.
  - destruct (generate_success_at_attempt str_exc env llm_client q ctx s
                Hq Htok Hk Hprev Hpost Hst Hjson Hc) as (s' & E & _).
    rewrite E. reflexivity.
  - intros found Hkb Hfound.
    destruct (generate_success_at_attempt str_exc env llm_client q found
                (state_at_generation q s) Hq Htok Hk Hprev Hpost Hst Hjson Hc)
      as (s' & E & _).
    rewrite (process_chat_request_run elapsed_rounded str_exc env llm_client
               {| query := q |} s Hkb).
    cbn [query]. rewrite E. eexists; eexists; split; [reflexivity|].
    cbn [response context_found].
    split; [exact Hfound | reflexivity].
Qed.

End SuccessfulAnswer.

(* ------------------------------------------------------------------ *)
(** ** Concrete runs *)
(* ------------------------------------------------------------------ *)

Module Runs.

Import Scenario.

(** Closes a goal between closed terms by evaluation. *)
Ltac by_evaluation := vm_compute; reflexivity.

(** C2, as first stated, fails: without a token the call ends with no
    exception at all. *)
Lemma generate_without_token_raises_nothing :
  ~ exists e s',
      generate_response str_exc (world None always_429) unconfigured_client
        question None initial_state = (Raise e, s').
Proof.
  intros (e & s' & H). vm_compute in H. discriminate H.
Qed.

Lemma generate_without_token_run :
  truthy (api_token unconfigured_client) = false
  /\ generate_response str_exc (world None always_429) unconfigured_client
       question None initial_state
     = (Return msg_token_missing, initial_state).
Proof.
  assert (H : truthy (api_token unconfigured_client) = false)
    by by_evaluation.
  split; [exact H|].
  rewrite (@generate_without_token_returns_text Z str_exc
             (world None always_429) unconfigured_client question None
             initial_state H).
  by_evaluation.
Defined.

Lemma three_rate_limits_run :
  exists s',
    generate_response str_exc (world None always_429) configured_client
      question None initial_state = (Raise (LLMAPIError msg_exhausted), s')
    /\ total_sleep (trace s') = 1 + 2 + 4
    /\ count_posts (trace s') = 3%nat.
Proof.
  destruct (@rate_limited_three_times_exhausts Z str_exc
              (world None always_429) configured_client question None
              initial_state)
    as (s' & Hrun & Htrace & Hposts).
  - by_evaluation.
  - by_evaluation.
  - intros k _. exists rate_limited. split; by_evaluation.
  - exists s'. split; [exact Hrun|].
    unfold extends in Htrace. rewrite Htrace. split; by_evaluation.
Defined.

Lemma third_attempt_succeeds_run :
  exists s' events,
    generate_response str_exc (world None ok_on_third) configured_client
      question None initial_state = (Return (strip answer_text), s')
    /\ extends initial_state s' events
    /\ total_sleep events = 3.
Proof.
  destruct (@rate_limited_twice_then_success Z str_exc
              (world None ok_on_third) configured_client question None
              initial_state (completion answer_text)
              (completion_body answer_text) answer_text)
    as (s' & events & Hrun & Hext & _ & Hsleep).
  - by_evaluation.
  - by_evaluation.
  - exists rate_limited. split; by_evaluation.
  - exists rate_limited. split; by_evaluation.
  - by_evaluation.
  - by_evaluation.
  - by_evaluation.
  - by_evaluation.
  - exists s', events. split; [exact Hrun|]. split; [exact Hext|].
    exact Hsleep.
Defined.

Lemma server_error_run :
  exists s',
    generate_response str_exc (world None always_500) configured_client
      question None initial_state
    = (Raise (LLMAPIError (u8 "API error 500: Internal Server Error")), s')
    /\ posts s' = 1%nat.
Proof.
  destruct (@api_error_on_first_attempt Z str_exc
              (world None always_500) configured_client question None
              initial_state server_error)
    as (s' & msg & Hrun & Hmsg & _ & _ & _ & Hposts & _).
  - by_evaluation.
  - by_evaluation.
  - by_evaluation.
  - vm_compute. discriminate.
  - vm_compute. discriminate.
  - exists s'. split; [|exact Hposts].
    rewrite Hrun, Hmsg.
    assert (E : msg_api_error (status_code server_error)
                  (slice_to 200 (text server_error))
                = u8 "API error 500: Internal Server Error")
      by by_evaluation.
    rewrite E. reflexivity.
Defined.

Lemma fallback_with_context_run :
  exists r s3,
    process_chat_request Z.sub str_exc (world (Some found_context) always_500)
      configured_client {| query := question |} initial_state = (Return r, s3)
    /\ context_found r = true
    /\ contains found_context (response r).
Proof.
  edestruct (@fallback_consistent_with_context_found Z Z.sub str_exc
               (world (Some found_context) always_500) configured_client
               {| query := question |} initial_state (Some found_context))
    as (r & s3 & Hrun & Hfound & Hctx & _).
  - by_evaluation.
  - by_evaluation.
  - exists r, s3. split; [exact Hrun|]. split.
    + rewrite Hfound. by_evaluation.
    + apply (Hctx found_context eq_refl). by_evaluation.
Defined.

Lemma success_after_timeout_run :
  fst (generate_response str_exc (world (Some found_context) timeout_then_ok)
         configured_client question (Some found_context) initial_state)
    = Return (strip answer_text)
  /\ exists rsp s',
       process_chat_request Z.sub str_exc
         (world (Some found_context) timeout_then_ok) configured_client
         {| query := question |} initial_state = (Return rsp, s')
       /\ context_found rsp = true
       /\ response rsp = strip answer_text.
Proof.
  destruct (@success_returns_stripped_model_text Z Z.sub str_exc
              (world (Some found_context) timeout_then_ok) configured_client
              question (Some found_context) initial_state 1%nat
              (completion answer_text) (completion_body answer_text)
              answer_text)
    as [Hgen Hhandle].
  - by_evaluation.
  - by_evaluation.
  - lia.
  - intros j Hj. destruct j as [|j]; [exact I | lia].
  - by_evaluation.
  - by_evaluation.
  - by_evaluation.
  - by_evaluation.
  - split; [exact Hgen|].
    apply (Hhandle (Some found_context)); by_evaluation.
Defined.

Lemma too_long_query_run :
  List.length (repeat 97%N 1001) = 1001%nat
  /\ exists e,
       post_chat Z.sub str_exc (world (Some found_context) ok_on_third)
         configured_client (repeat 97%N 1001) initial_state
       = (Return (ReplyInvalid Z e), initial_state).
Proof.
  assert (H : List.length (repeat 97%N 1001) = 1001%nat) by by_evaluation.
  split; [exact H|].
  exact (@invalid_queries_rejected_before_network Z Z.sub str_exc
           (world (Some found_context) ok_on_third) configured_client
           (repeat 97%N 1001) initial_state (or_intror (or_intror H))).
Defined.

Lemma empty_retrieval_run :
  exists r s',
    process_chat_request Z.sub str_exc (world (Some []) ok_on_third)
      configured_client {| query := question |} initial_state = (Return r, s')
    /\ context_found r = false
    /\ exists evs,
         extends initial_state s' evs
         /\ Forall
              (fun ev => forall url h p, ev = EvPost url h p ->
                 payload_messages p = _build_messages question None)
              evs.
Proof.
  destruct (process_chat_request Z.sub str_exc (world (Some []) ok_on_third)
              configured_client {| query := question |} initial_state)
    as [[r | e] s'] eqn:Hrun; [| vm_compute in Hrun; discriminate Hrun].
  assert (Hkb : kb_search (world (Some []) ok_on_third) question 3
                = inr (Some [])) by reflexivity.
  destruct (proj2 (proj2 (proj2
              (@empty_context_treated_as_absent Z Z.sub str_exc
                 (world (Some []) ok_on_third) configured_client question)))
              initial_state (Some []) r s' Hkb Hrun)
    as (Hfound & evs & Hext & Hall).
  exists r, s'. split; [reflexivity|]. split; [exact Hfound|].
  exists evs. split; [exact Hext|].
  eapply Forall_impl; [|exact Hall].
  intros ev Hev url h p E. rewrite (Hev url h p E), Hfound.
  unfold _build_messages. cbn [truthy_opt]. reflexivity.
Defined.

End Runs.

Module MoreRuns.

Import Scenario MoreScenarios.

Ltac evaluated := vm_compute; reflexivity.

Lemma three_timeouts_run :
  exists s',
    generate_response str_exc (world None always_timeout) configured_client
      question None initial_state = (Raise (LLMAPIError msg_timeout), s')
    /\ posts s' = 3%nat.
Proof.
  destruct (@last_attempt_decides_the_failure Z str_exc
              (world None always_timeout) configured_client question None
              initial_state (TimeoutException (u8 "timed out")))
    as (s' & n0 & n1 & Hrun & _ & Hposts).
  - evaluated.
  - evaluated.
  - exact I.
  - exact I.
  - evaluated.
  - exact I.
  - exists s'. split; [exact Hrun | exact Hposts].
Defined.

Lemma blank_query_run :
  all_space (u8 "   ") = true
  /\ generate_response str_exc (world None always_ok) configured_client
       (u8 "   ") None initial_state
     = (Return msg_ask_question, initial_state).
Proof.
  assert (H : all_space (u8 "   ") = true) by evaluated.
  split; [exact H|].
  exact (@blank_query_is_answered_locally Z str_exc (world None always_ok)
           configured_client (u8 "   ") None initial_state H).
Defined.

Lemma empty_choices_run :
  exists s' e,
    generate_response str_exc (world None always_empty_choices)
      configured_client question None initial_state
    = (Raise (LLMAPIError (msg_internal (str_exc e))), s')
    /\ posts s' = 1%nat.
Proof.
  destruct (@unusable_success_body_is_internal_error Z str_exc
              (world None always_empty_choices) configured_client question
              None initial_state 0%nat empty_choices
              (JDict [ (u8 "choices", JList []) ]))
    as (s' & e & Hrun & _ & Hposts).
  - evaluated.
  - evaluated.
  - lia.
  - intros j Hj. lia.
  - evaluated.
  - evaluated.
  - evaluated.
  - vm_compute. exact I.
  - exists s', e. split; [exact Hrun | exact Hposts].
Defined.

Lemma api_error_after_timeout_run :
  exists s' detail,
    generate_response str_exc (world None timeout_then_500)
      configured_client question None initial_state
    = (Raise (LLMAPIError
                (u8 "API error " ++ str_of_int 500 ++ u8 ": " ++ detail)), s')
    /\ posts s' = 2%nat
    /\ detail = u8 "Internal Server Error".
Proof.
  destruct (@api_error_ends_the_call Z str_exc
              (world None timeout_then_500) configured_client question
              None initial_state 1%nat server_error)
    as (s' & detail & Hrun & Hposts & _ & _ & Hwhole).
  - evaluated.
  - evaluated.
  - lia.
  - intros j Hj. destruct j as [|j]; [exact I | lia].
  - evaluated.
  - vm_compute. discriminate.
  - vm_compute. discriminate.
  - exists s', detail. split; [exact Hrun|]. split; [exact Hposts|].
    apply Hwhole. vm_compute. discriminate.
Defined.

Lemma padded_question_accepted :
  ChatRequest_parse padded_question = inr {| query := question |}.
Proof. evaluated. Qed.

Lemma normalised_query_run :
  exists r,
    ChatRequest_parse padded_question = inr r
    /\ query r = strip padded_question
    /\ 1 <= len (query r) <= 1000
    /\ strip (query r) = query r.
Proof.
  exists {| query := question |}.
  split; [exact padded_question_accepted|].
  destruct (@accepted_query_is_normalised padded_question
              {| query := question |} padded_question_accepted)
    as (Hq & Hlen & Hstrip & _).
  split; [exact Hq|]. split; [exact Hlen | exact Hstrip].
Defined.

Lemma accepted_again_run :
  exists r,
    ChatRequest_parse padded_question = inr r
    /\ ChatRequest_parse (query r) = inr r.
Proof.
  exists {| query := question |}.
  split; [exact padded_question_accepted|].
  exact (@accepted_query_is_accepted_again padded_question
           {| query := question |} padded_question_accepted).
Defined.

Lemma accepted_query_posted_run :
  exists r evs,
    ChatRequest_parse padded_question = inr r
    /\ extends initial_state
         (snd (generate_response str_exc (world None always_ok)
                 configured_client (query r) None initial_state))
         (completion_call configured_client (strip padded_question) None
            :: evs).
Proof.
  assert (Htok : truthy (api_token configured_client) = true) by evaluated.
  destruct (@accepted_query_is_posted Z str_exc (world None always_ok)
              configured_client padded_question {| query := question |}
              None initial_state padded_question_accepted Htok)
    as [evs H].
  exists {| query := question |}, evs.
  split; [exact padded_question_accepted | exact H].
Defined.


Lemma broken_retrieval_run :
  exists s',
    process_chat_request Z.sub str_exc (broken_retrieval always_ok)
      configured_client {| query := question |} initial_state
    = (Raise (HTTPException 500 internal_error_detail), s')
    /\ posts s' = 0%nat.
Proof.
  destruct (@retrieval_failure_is_internal_error Z Z.sub str_exc
              (broken_retrieval always_ok) configured_client
              {| query := question |} initial_state
              (OtherException (u8 "index not loaded")))
    as (s' & Hrun & _ & Hposts).
  - evaluated.
  - exists s'. split; [exact Hrun | exact Hposts].
Defined.

Lemma blank_answer_probe_run :
  fst (health_check str_exc (world None blank_answer) configured_client
         initial_state) = Return false.
Proof.
  apply (@health_check_rejects_blank_answer Z str_exc
           (world None blank_answer) configured_client initial_state
           (completion (u8 "  
 "))
           (completion_body (u8 "  
 "))
           (u8 "  
 ")); evaluated.
Defined.

Lemma health_route_without_statistics_run :
  app_health_check str_exc (world None always_ok)
    (inl (OtherException (u8 "index not loaded")))
    (example_config (u8 "sk-test")) configured_client initial_state
  = (Return (JDict [ (u8 "status", JStr (u8 "error"));
                     (u8 "error", JStr (u8 "index not loaded")) ]),
     initial_state).
Proof.
  rewrite (@health_route_without_statistics Z str_exc (world None always_ok)
             configured_client
             (inl (OtherException (u8 "index not loaded")))
             (example_config (u8 "sk-test")) initial_state
             (OtherException (u8 "index not loaded")) eq_refl).
  evaluated.
Defined.

Lemma health_route_run :
  exists answer s',
    app_health_check str_exc (world None always_ok) (inr kb_stats)
      (example_config (u8 "sk-test")) configured_client initial_state
    = (Return answer, s')
    /\ getitem_key answer (u8 "status") = inr (JStr (u8 "healthy")).
Proof.
  destruct (@health_route_reports_the_probe Z str_exc (world None always_ok)
              configured_client (inr kb_stats)
              (example_config (u8 "sk-test")) initial_state kb_stats
              (JInt 42) (JInt 384))
    as (b & s' & answer & components & kb & llm & Hprobe & Hrun & Hstatus & _).
  - reflexivity.
  - evaluated.
  - evaluated.
  - exists answer, s'. split; [exact Hrun|].
    rewrite Hstatus.
    assert (Hb : b = true).
    { assert (E : fst (health_check str_exc (world None always_ok)
                         configured_client initial_state) = Return true)
        by evaluated.
      rewrite Hprobe in E. inversion E. reflexivity. }
    rewrite Hb. reflexivity.
Defined.

End MoreRuns.

Module FurtherRuns.

Import Scenario MoreScenarios.

Ltac evaluated := vm_compute; reflexivity.

Ltac other_key := let H := fresh in intros H; vm_compute in H; discriminate H.

(** C1, as first stated, fails for the failure of a missing token: with a
    context found, the answer of the handler is the reply of
    [generate_response] for a missing token, in which the context does
    not occur. *)
Lemma unconfigured_handler_omits_context :
  exists r s',
    process_chat_request Z.sub str_exc (world (Some found_context) always_ok)
      unconfigured_client {| query := question |} initial_state
    = (Return r, s')
    /\ context_found r = true
    /\ response r = msg_token_missing
    /\ ~ contains found_context (response r).
Proof.
  destruct (@process_chat_request_without_token Z Z.sub str_exc
              (world (Some found_context) always_ok) unconfigured_client
              {| query := question |} initial_state (Some found_context))
    as (r & s' & Hrun & Hresp & Hfound & _).
  - evaluated.
  - evaluated.
  - evaluated.
  - exists r, s'. split; [exact Hrun|]. split; [|split].
    + rewrite Hfound. evaluated.
    + exact Hresp.
    + rewrite Hresp. intros H. apply contains_containsb in H.
      vm_compute in H. discriminate H.
Qed.

Lemma two_choices_shape : first_choice_says two_choices_body answer_text.
Proof.
  unfold first_choice_says, two_choices_body.
  eexists; eexists; eexists; eexists.
  split; [reflexivity|]. split; [|split].
  - apply dict_maps_later; [other_key | apply dict_maps_here].
  - apply dict_maps_later; [other_key | apply dict_maps_here].
  - apply dict_maps_later; [other_key | apply dict_maps_here].
Qed.

Lemma trimmed_first_choice_run :
  fst (generate_response str_exc
         (world (Some found_context) timeout_then_two_choices)
         configured_client question (Some found_context) initial_state)
    = Return (u8 "Доходность не гарантирована.")
  /\ exists rsp s',
       process_chat_request Z.sub str_exc
         (world (Some found_context) timeout_then_two_choices)
         configured_client {| query := question |} initial_state
       = (Return rsp, s')
       /\ context_found rsp = true
       /\ response rsp = u8 "Доходность не гарантирована.".
Proof.
  destruct (@success_returns_trimmed_first_choice Z Z.sub str_exc
              (world (Some found_context) timeout_then_two_choices)
              configured_client question (Some found_context) initial_state
              1%nat two_choices two_choices_body answer_text)
    as (t & _ & Hgen & Hhandle).
  - evaluated.
  - evaluated.
  - lia.
  - intros j Hj. destruct j as [|j]; [exact I | lia].
  - evaluated.
  - evaluated.
  - evaluated.
  - exact two_choices_shape.
  - assert (Ht : t = u8 "Доходность не гарантирована.").
    { assert (E : fst (generate_response str_exc
                         (world (Some found_context) timeout_then_two_choices)
                         configured_client question (Some found_context)
                         initial_state)
                  = Return (u8 "Доходность не гарантирована."))
        by evaluated.
      rewrite Hgen in E. injection E as E. exact E. }
    split; [rewrite Hgen, Ht; reflexivity|].
    destruct (Hhandle (Some found_context)) as (rsp & s' & Hrun & Hf & Hr).
    + evaluated.
    + evaluated.
    + exists rsp, s'. split; [exact Hrun|]. split; [exact Hf|].
      rewrite Hr. exact Ht.
Defined.


End FurtherRuns.
